(** * IdiapTTS: the atom model trainer (idiaptts/src/model_trainers/wcad/AtomModelTrainer.py)

    A shallow embedding of the lf0 reconstruction, trimming and stitching
    code of [AtomModelTrainer], and the properties the specification states
    about it.

    Conventions.
    - Python floats are binary64 and are modelled by Rocq's primitive floats.
      numpy arrays hold values of that type; the rounding numpy applies when
      it stores a value into an array of a narrower dtype is not modelled.
    - A numpy array obtained by basic slicing is a view: it shares the memory
      of its base array.  A view is modelled as a [slice] (a range of rows) of
      its base, and a write through the view updates the base.
    - Python exceptions are the [Raise] results of the [result] type. *)

From Stdlib Require Import ZArith Floats Lia.
From stdpp Require Import gmap strings list fin_maps.

Set Warnings "-inexact-float".

(** ** Results and exceptions *)

Inductive exn : Type :=
| KeyError
| IndexError
| ValueError
| TypeError
| IOError
| ZeroDivisionError
| Unspecified.

Inductive result (A : Type) : Type :=
| Ok (a : A)
| Raise (e : exn).

Arguments Ok {A} a.
Arguments Raise {A} e.

Definition rbind {A B : Type} (r : result A) (f : A -> result B) : result B :=
  match r with
  | Ok a => f a
  | Raise e => Raise e
  end.

Notation "'let?' x := r 'in' k" := (rbind r (fun x => k))
  (at level 10, x pattern, r at level 100, k at level 200).

(** A Python attribute that may be absent ([hasattr] is false), present with
    value [None], or present with a value. *)
Inductive attr (A : Type) : Type :=
| Missing
| PyNone
| Value (a : A).

Arguments Missing {A}.
Arguments PyNone {A}.
Arguments Value {A} a.

(** ** numpy arrays *)

(** A two-dimensional array: [nrows] rows of [ncols] values each. *)
Record matrix : Type := Matrix {
  ncols : nat;
  rows : list (list float)
}.

Definition wf_matrix (m : matrix) : Prop :=
  Forall (fun r => length r = ncols m) (rows m).

(** [len(m)] *)
Definition nrows (m : matrix) : nat := length (rows m).

(** Label arrays come with one, two or three axes. *)
Inductive ndarray : Type :=
| Arr1 (a : list float)
| Arr2 (a : list (list float))
| Arr3 (a : list (list (list float))).

(** [len(a)]: the extent of the first axis. *)
Definition len (a : ndarray) : nat :=
  match a with
  | Arr1 l => length l
  | Arr2 l => length l
  | Arr3 l => length l
  end.

(** [np.expand_dims(a, axis=1)] of a T x D array: a T x 1 x D array. *)
Definition expand_dims_axis1 (a : list (list float)) : list (list (list float)) :=
  map (fun r => [r]) a.

(** ** Views *)

(** Rows [sl_start, sl_start + sl_len) of a base array. *)
Record slice : Type := Slice {
  sl_start : nat;
  sl_len : nat
}.

(** The array itself, seen as a view of all its rows. *)
Definition whole (n : nat) : slice := Slice 0 n.

(** The rows a view selects. *)
Definition slice_of {A : Type} (v : slice) (l : list A) : list A :=
  take (sl_len v) (drop (sl_start v) l).

(** Modelled from the spec: [LabelGen.trim_end_sample(sample, length, reverse)],
    inherited by [WorldFeatLabelGen] and [AtomLabelGen], is not part of the
    sources at hand.  It removes [length] frames from the end of the sample,
    and from the beginning when [reverse] is true; removing more frames than
    the sample has leaves no frame.  The result is a view of the sample.  What
    a negative [length] does is not described. *)
Definition trim_end_sample (sample : slice) (length : Z) (reverse : bool)
  : result slice :=
  if (length <? 0)%Z then Raise Unspecified
  else
    let n := Z.to_nat length `min` sl_len sample in
    if reverse
    then Ok (Slice (sl_start sample + n) (sl_len sample - n))
    else Ok (Slice (sl_start sample) (sl_len sample - n)).

(** [int(d / 2)] and [int(d / 2.0)]: true division, then truncation towards
    zero.  The quotient is exact for every length a numpy array can have. *)
Definition int_half (d : Z) : Z := Z.quot d 2.

(** ** Alignment of the trimmed signals *)

(** [run_atom_synth], lines 388-390: the view of the full sample the
    reconstructed lf0 is written to. *)
Definition run_atom_synth_trim (len_full_sample len_lf0 : nat) : result slice :=
  let len_diff := (Z.of_nat len_full_sample - Z.of_nat len_lf0)%Z in
  let? full_sample := trim_end_sample (whole len_full_sample) (int_half len_diff) true in
  trim_end_sample full_sample (len_diff - int_half len_diff) false.

(** [gen_figure_from_output], lines 138-140: the original lf0 trimmed for the
    plot.  Lines 143-144 trim [org_labels] by the same two lengths. *)
Definition gen_figure_from_output_trim (len_original_lf0 len_lf0 : nat)
  : result slice :=
  let len_diff := (Z.of_nat len_original_lf0 - Z.of_nat len_lf0)%Z in
  let? original_lf0 := trim_end_sample (whole len_original_lf0) (int_half len_diff) false in
  trim_end_sample original_lf0 (int_half len_diff + 1) true.

(** ** Reading and writing columns *)

(** [m[:, c]] *)
Definition column (m : matrix) (c : nat) : result (list float) :=
  if c <? ncols m
  then Ok (map (fun r => default 0%float (r !! c)) (rows m))
  else Raise IndexError.

(** numpy broadcasting of a one-dimensional value to [n] entries: a value of
    [n] entries is taken as it is, a value of one entry is repeated. *)
Definition broadcast (n : nat) (vals : list float) : result (list float) :=
  if length vals =? n then Ok vals
  else match vals with
       | [x] => Ok (replicate n x)
       | _ => Raise ValueError
       end.

(** Entry [i - start] of [xs] is stored in column [c] of row [i]. *)
Definition write_column (c start : nat) (xs : list float)
    (rs : list (list float)) : list (list float) :=
  imap (fun i r =>
          match (if decide (start <= i) then xs !! (i - start) else None) with
          | Some x => <[c := x]> r
          | None => r
          end) rs.

(** [sample[:, c] = vals], where [sample] is the view [v] of [m]: the write
    goes to the rows of [m] the view selects. *)
Definition set_column (m : matrix) (v : slice) (c : nat) (vals : list float)
  : result matrix :=
  if c <? ncols m
  then let? xs := broadcast (sl_len v) vals in
       Ok (Matrix (ncols m) (write_column c (sl_start v) xs (rows m)))
  else Raise IndexError.

(** A Python [for] loop whose body updates the loop state and may raise. *)
Fixpoint for_each {A S : Type} (body : A -> S -> result S) (l : list A) (s : S)
  : result S :=
  match l with
  | [] => Ok s
  | a :: l' => let? s' := body a s in for_each body l' s'
  end.

(** ** Hyper-parameters, the trainer object and the program state *)

Record HParams : Type := {
  world_dir : attr string;
  num_coded_sps : nat;
  thetas : list float;
  hp_k : Z;
  frame_size_ms : Z;
  min_atom_amp : float;
  synth_acoustic_model_path : option string;
  synth_file_suffix : string;
  weight_zero : attr float;
  weight_non_zero : attr float
}.

Definition set_synth_file_suffix (s : string) (hp : HParams) : HParams :=
  {| world_dir := world_dir hp;
     num_coded_sps := num_coded_sps hp;
     thetas := thetas hp;
     hp_k := hp_k hp;
     frame_size_ms := frame_size_ms hp;
     min_atom_amp := min_atom_amp hp;
     synth_acoustic_model_path := synth_acoustic_model_path hp;
     synth_file_suffix := s;
     weight_zero := weight_zero hp;
     weight_non_zero := weight_non_zero hp |}.

Definition set_weights (wz wnz : attr float) (hp : HParams) : HParams :=
  {| world_dir := world_dir hp;
     num_coded_sps := num_coded_sps hp;
     thetas := thetas hp;
     hp_k := hp_k hp;
     frame_size_ms := frame_size_ms hp;
     min_atom_amp := min_atom_amp hp;
     synth_acoustic_model_path := synth_acoustic_model_path hp;
     synth_file_suffix := synth_file_suffix hp;
     weight_zero := wz;
     weight_non_zero := wnz |}.

(** The fields of a label generator the trainer reads. *)
Record LabelGen : Type := {
  dir_labels : string;
  ext_phrase : string
}.

(** The method [self.f_synthesize] is bound to. *)
Inductive synth_method : Type :=
| bound_save_audio_features
| bound_synthesize.

(** The value of [full_output]: a dictionary of feature matrices, or [None]. *)
Definition full_output_t : Type := option (gmap string matrix).

Section Trainer.

(** The model handler objects ([self.model_handler]). *)
Context {handler : Type}.

Record trainer : Type := {
  OutputGen : LabelGen;
  AudioGen : LabelGen;
  dir_extracted_acoustic_features : string;
  model_handler : handler;
  f_synthesize : synth_method
}.

(** Calls into the synthesis framework, with the arguments they received. *)
Inductive call : Type :=
| Call_run_world_synth (full_output : full_output_t) (hparams : HParams)
| Call_ModelTrainer_synthesize (id_list : list string)
    (synth_output : gmap string matrix) (hparams : HParams)
| Call_ModelTrainer_synth (self : trainer) (hparams : HParams)
    (id_list : list string).

(** [hparams] is one object, shared by the caller and every callee. *)
Record state : Type := {
  st_self : trainer;
  st_hparams : HParams;
  st_calls : list call
}.

Definition with_self (t : trainer) (st : state) : state :=
  {| st_self := t; st_hparams := st_hparams st; st_calls := st_calls st |}.

Definition with_hparams (hp : HParams) (st : state) : state :=
  {| st_self := st_self st; st_hparams := hp; st_calls := st_calls st |}.

Definition record_call (c : call) (st : state) : state :=
  {| st_self := st_self st; st_hparams := st_hparams st;
     st_calls := st_calls st ++ [c] |}.

Definition with_model_handler (h : handler) (t : trainer) : trainer :=
  {| OutputGen := OutputGen t; AudioGen := AudioGen t;
     dir_extracted_acoustic_features := dir_extracted_acoustic_features t;
     model_handler := h; f_synthesize := f_synthesize t |}.

Definition with_f_synthesize (f : synth_method) (t : trainer) : trainer :=
  {| OutputGen := OutputGen t; AudioGen := AudioGen t;
     dir_extracted_acoustic_features := dir_extracted_acoustic_features t;
     model_handler := model_handler t; f_synthesize := f |}.

Definition with_OutputGen (g : LabelGen) (t : trainer) : trainer :=
  {| OutputGen := g; AudioGen := AudioGen t;
     dir_extracted_acoustic_features := dir_extracted_acoustic_features t;
     model_handler := model_handler t; f_synthesize := f_synthesize t |}.

End Trainer.

Arguments trainer : clear implicits.
Arguments call : clear implicits.
Arguments state : clear implicits.

(** ** The code the trainer calls

    Libraries and the classes of the repository whose sources are not at hand
    are parameters of the development.  Reading a file may raise; the
    conversions between labels, atoms and lf0 are taken to be total. *)
Class Externals : Type := {
  (** atoms, as [AtomLabelGen.labels_to_atoms] returns them *)
  atoms : Type;
  handler : Type;
  (** [os.path.join], [os.path.realpath], [os.path.basename] *)
  path_join : string -> string -> string;
  realpath : string -> string;
  basename : string -> string;
  (** [math.log(WorldFeatLabelGen.f0_silence_threshold)] *)
  log_f0_silence_threshold : float;
  (** [WorldFeatLabelGen.lf0_zero] *)
  lf0_zero : float;
  (** [np.fromfile(path, dtype=np.float32)] *)
  np_fromfile : string -> result (list float);
  (** [WorldFeatLabelGen.load_sample(id_name, dir, add_deltas=False, num_coded_sps=n)] *)
  WorldFeatLabelGen_load_sample : string -> string -> nat -> result matrix;
  (** [AtomLabelGen.load_sample(id_name, dir, num_thetas)] *)
  AtomLabelGen_load_sample : string -> string -> nat -> result ndarray;
  (** [labels_to_atoms(label, k=, frame_size=, amp_threshold=)] *)
  labels_to_atoms : ndarray -> Z -> Z -> float -> atoms;
  (** [atoms_to_lf0(atoms, num_frames=)] *)
  atoms_to_lf0 : atoms -> nat -> list float;
  (** [AcousticModelTrainer(acoustic_model_hparams)], from the model name and path *)
  AcousticModelTrainer : string -> string -> handler;
  (** [Synthesiser.run_world_synth(full_output, hparams)]: may change [hparams] *)
  run_world_synth : full_output_t -> HParams -> result HParams;
  (** [ModelTrainer.synthesize(self, id_list, synth_output, hparams)] *)
  ModelTrainer_synthesize :
    list string -> gmap string matrix -> HParams -> result HParams;
  (** [ModelTrainer.synth(self, hparams, id_list)] *)
  ModelTrainer_synth : trainer handler -> HParams -> list string -> result HParams
}.

(** What the development assumes of that code. *)
Class ExternalsSpec (E : Externals) : Prop := {
  (** [atoms_to_lf0] returns [num_frames] frames *)
  atoms_to_lf0_length : forall a n, length (atoms_to_lf0 a n) = n;
  (** a loaded feature matrix is rectangular *)
  load_sample_wf : forall id_name dir n m,
    WorldFeatLabelGen_load_sample id_name dir n = Ok m -> wf_matrix m
}.

Section Methods.

Context {E : Externals}.

Abbreviation trainer := (trainer handler).
Abbreviation state := (state handler).
Abbreviation call := (call handler).

(** ** AtomModelTrainer.__init__, lines 72-80 *)

(** Modelled from the spec: [hparams.add_hparam(name, value)] belongs to the
    hyper-parameter container, which is not part of the sources at hand; it
    sets the attribute [name] of the container to [value]. *)
Definition add_hparam_weight_non_zero (v : float) (hp : HParams) : HParams :=
  set_weights (weight_zero hp) (Value v) hp.

Definition add_hparam_weight_zero (v : float) (hp : HParams) : HParams :=
  set_weights (Value v) (weight_non_zero hp) hp.

(** [min(a, b)] of two Python floats: [b] if [b < a], else [a]. *)
Definition py_min (a b : float) : float :=
  if PrimFloat.ltb b a then b else a.

(** [float(n)] of a Python int. *)
Definition float_of_nat (n : nat) : float :=
  PrimFloat.of_uint63 (Uint63.of_Z (Z.of_nat n)).

(** [x / n] for a Python float [x] and a Python int [n]. *)
Definition py_div_int (x : float) (n : nat) : result float :=
  if n =? 0 then Raise ZeroDivisionError
  else Ok (PrimFloat.div x (float_of_nat n)).

(** The weights of zero and non-zero frames, as [__init__] fills them in. *)
Definition init_weights (thetas : list float) (hparams : HParams)
  : result HParams :=
  let? ratio := py_div_int 0.02%float (length thetas) in
  let non_zero_occurrence := py_min 0.99%float ratio in
  let zero_occurrence := PrimFloat.sub 1%float non_zero_occurrence in
  match weight_zero hparams with
  | Missing =>
      let hparams := add_hparam_weight_non_zero
                       (PrimFloat.div 1%float non_zero_occurrence) hparams in
      Ok (add_hparam_weight_zero (PrimFloat.div 1%float zero_occurrence) hparams)
  | PyNone =>
      Ok (set_weights (Value (PrimFloat.div 1%float zero_occurrence))
                      (Value (PrimFloat.div 1%float non_zero_occurrence)) hparams)
  | Value _ => Ok hparams
  end.

(** ** get_recon_from_synth_output *)

(** The phrase file of an utterance. *)
Definition phrase_path (self : trainer) (id_name : string) : string :=
  path_join (dir_labels (OutputGen self)) (id_name +:+ ext_phrase (OutputGen self)).

(** Lines 204-205: [if len(label.shape) == 2: label = np.expand_dims(label, axis=1)]. *)
Definition expand_label (label : ndarray) : ndarray :=
  match label with
  | Arr2 a => Arr3 (expand_dims_axis1 a)
  | _ => label
  end.

(** [reconstruction[:len(phrase_curve)] += phrase_curve] *)
Definition add_phrase (reconstruction phrase_curve : list float)
  : result (list float) :=
  let n := length phrase_curve in
  let? p := broadcast (length (take n reconstruction)) phrase_curve in
  Ok (zip_with PrimFloat.add (take n reconstruction) p ++ drop n reconstruction).

(** [reconstruction[reconstruction <= math.log(f0_silence_threshold)] = lf0_zero] *)
Definition silence (reconstruction : list float) : list float :=
  map (fun x => if PrimFloat.leb x log_f0_silence_threshold then lf0_zero else x)
      reconstruction.

(** The body of the loop, lines 204-214: the lf0 of one utterance. *)
Definition reconstruct (self : trainer) (hparams : HParams)
    (id_name : string) (label : ndarray) : result (list float) :=
  let label := expand_label label in
  let atoms := labels_to_atoms label (hp_k hparams) (frame_size_ms hparams)
                               (min_atom_amp hparams) in
  let reconstruction := atoms_to_lf0 atoms (len label) in
  let? raw := np_fromfile (phrase_path self id_name) in
  let phrase_curve := take (length reconstruction) raw in
  let? reconstruction := add_phrase reconstruction phrase_curve in
  Ok (silence reconstruction).

Definition get_recon_from_synth_output (self : trainer)
    (synth_output : gmap string ndarray) (hparams : HParams)
  : result (gmap string (list float)) :=
  for_each (fun '(id_name, label) recon_dict =>
              let? reconstruction := reconstruct self hparams id_name label in
              Ok (<[id_name := reconstruction]> recon_dict))
           (map_to_list synth_output) ∅.

(** ** load_extracted_audio_features *)

Definition extracted_world_dir (self : trainer) (hparams : HParams) : string :=
  match world_dir hparams with
  | Value d => d
  | _ => realpath (path_join (dir_labels (OutputGen self))
                             (dir_extracted_acoustic_features self))
  end.

Definition load_extracted_audio_features {V : Type} (self : trainer)
    (synth_output : gmap string V) (hparams : HParams)
  : result (gmap string matrix) :=
  for_each (fun id_name org_output =>
              let? sample := WorldFeatLabelGen_load_sample id_name
                               (extracted_world_dir self hparams)
                               (num_coded_sps hparams) in
              Ok (<[id_name := sample]> org_output))
           (map_to_list synth_output).*1 ∅.

(** ** generate_audio_features

    The method has no [return] statement: its value is [None]. *)
Definition generate_audio_features (id_list : list string) (st : state)
  : result (full_output_t * state) :=
  let hparams := st_hparams st in
  let self := st_self st in
  match synth_acoustic_model_path hparams with
  | None => Raise TypeError
  | Some path =>
      let acoustic_model_handler := AcousticModelTrainer (basename path) path in
      let org_model_handler := model_handler self in
      let self := with_model_handler acoustic_model_handler self in
      let self := with_f_synthesize bound_save_audio_features self in
      let org_output_gen := OutputGen self in
      let self := with_OutputGen (AudioGen self) self in
      let st := record_call (Call_ModelTrainer_synth self hparams id_list)
                            (with_self self st) in
      let? hparams := ModelTrainer_synth self hparams id_list in
      let self := with_f_synthesize bound_synthesize self in
      let self := with_OutputGen org_output_gen self in
      let self := with_model_handler org_model_handler self in
      Ok (None, with_self self (with_hparams hparams st))
  end.

(** ** run_atom_synth *)

(** [vuv = np.ones(lf0.shape); vuv[lf0 <= math.log(f0_silence_threshold)] = 0.0] *)
Definition vuv_of (lf0 : list float) : list float :=
  map (fun x => if PrimFloat.leb x log_f0_silence_threshold
                then 0%float else 1%float) lf0.

(** The body of the loop, lines 387-394.  [full_sample] is first the array
    [full_output[id_name]] and then a view of it; the two assignments write
    through the view into that array. *)
Definition stitch (num_coded_sps : nat) (entry : string * list float)
    (full_output : full_output_t) : result full_output_t :=
  let '(id_name, lf0) := entry in
  match full_output with
  | None => Raise TypeError
  | Some arrays =>
      match arrays !! id_name with
      | None => Raise KeyError
      | Some base =>
          let? full_sample := run_atom_synth_trim (nrows base) (length lf0) in
          let vuv := vuv_of lf0 in
          let? base := set_column base full_sample num_coded_sps lf0 in
          let? base := set_column base full_sample (num_coded_sps + 1) vuv in
          Ok (Some (<[id_name := base]> arrays))
      end
  end.

Definition run_atom_synth (file_id_list : list string)
    (synth_output : gmap string ndarray) (st : state)
  : result (full_output_t * state) :=
  let? (full_output, st) :=
    match synth_acoustic_model_path (st_hparams st) with
    | None =>
        let? loaded := load_extracted_audio_features (st_self st) synth_output
                                                     (st_hparams st) in
        Ok (Some loaded, st)
    | Some _ => generate_audio_features file_id_list st
    end in
  let? recon_dict := get_recon_from_synth_output (st_self st) synth_output
                                                 (st_hparams st) in
  let? full_output := for_each (stitch (num_coded_sps (st_hparams st)))
                               (map_to_list recon_dict) full_output in
  Ok (full_output, st).

(** ** synthesize, synth_ref_wcad, synth_phrase *)

Definition call_run_world_synth (full_output : full_output_t) (st : state)
  : result state :=
  let st := record_call (Call_run_world_synth full_output (st_hparams st)) st in
  let? hparams := run_world_synth full_output (st_hparams st) in
  Ok (with_hparams hparams st).

Definition call_ModelTrainer_synthesize (id_list : list string)
    (synth_output : gmap string matrix) (st : state) : result state :=
  let st := record_call
              (Call_ModelTrainer_synthesize id_list synth_output (st_hparams st)) st in
  let? hparams := ModelTrainer_synthesize id_list synth_output (st_hparams st) in
  Ok (with_hparams hparams st).

Definition synthesize (id_list : list string)
    (synth_output : gmap string ndarray) (st : state) : result state :=
  let? (full_output, st) := run_atom_synth id_list synth_output st in
  call_run_world_synth full_output st.

Definition synth_ref_wcad (file_id_list : list string) (st : state)
  : result state :=
  let? synth_output :=
    for_each (fun id_name (synth_output : gmap string ndarray) =>
                let? sample := AtomLabelGen_load_sample id_name
                                 (dir_labels (OutputGen (st_self st)))
                                 (length (thetas (st_hparams st))) in
                Ok (<[id_name := sample]> synth_output))
             file_id_list ∅ in
  let? (full_output, st) := run_atom_synth file_id_list synth_output st in
  let old_synth_file_suffix := synth_file_suffix (st_hparams st) in
  let st := with_hparams
              (set_synth_file_suffix
                 (synth_file_suffix (st_hparams st) +:+ "_wcad_ref")
                 (st_hparams st)) st in
  let? st := call_run_world_synth full_output st in
  Ok (with_hparams (set_synth_file_suffix old_synth_file_suffix (st_hparams st)) st).

(** [labels[:, -3] = vals] on an array that is not a view. *)
Definition set_column_minus3 (labels : matrix) (vals : list float)
  : result matrix :=
  if 3 <=? ncols labels
  then set_column labels (whole (nrows labels)) (ncols labels - 3) vals
  else Raise IndexError.

(** The body of the loop, lines 357-360. *)
Definition override_lf0 (self : trainer) (id_name : string)
    (full_output : gmap string matrix) : result (gmap string matrix) :=
  match full_output !! id_name with
  | None => Raise KeyError
  | Some labels =>
      let? raw := np_fromfile (phrase_path self id_name) in
      let phrase_curve := take (nrows labels) raw in
      let? labels := set_column_minus3 labels (take (nrows labels) phrase_curve) in
      Ok (<[id_name := labels]> full_output)
  end.

Definition synth_phrase (file_id_list : list string) (st : state)
  : result state :=
  let synth_output : gmap string unit :=
    foldl (fun synth_output id_name => <[id_name := tt]> synth_output)
          ∅ file_id_list in
  let? full_output := load_extracted_audio_features (st_self st) synth_output
                                                    (st_hparams st) in
  let? full_output := for_each (override_lf0 (st_self st)) file_id_list
                               full_output in
  let old_synth_file_suffix := synth_file_suffix (st_hparams st) in
  let st := with_hparams
              (set_synth_file_suffix
                 (synth_file_suffix (st_hparams st) +:+ "_phrase")
                 (st_hparams st)) st in
  let? st := call_ModelTrainer_synthesize file_id_list full_output st in
  Ok (with_hparams (set_synth_file_suffix old_synth_file_suffix (st_hparams st)) st).

End Methods.

(** ** Predicates used in the statements *)

Section Predicates.

Context {E : Externals}.

(** [m'] is [m] after lines 388-394 ran on it with the lf0 [lf0]. *)
Definition stitched (c : nat) (lf0 : list float) (m m' : matrix) : Prop :=
  exists v m1,
    run_atom_synth_trim (nrows m) (length lf0) = Ok v /\
    set_column m v c lf0 = Ok m1 /\
    set_column m1 v (c + 1) (vuv_of lf0) = Ok m'.

(** The value in row [i] and column [c]. *)
Definition entry (m : matrix) (c i : nat) : option float :=
  rows m !! i ≫= fun r => r !! c.

End Predicates.

(** ** A small concrete instance

    Two utterances.  The features of [utt1] have five frames and its atom
    labels three; the features and the labels of [utt2] have two frames.  A
    feature matrix has four columns: one coded spectral value, lf0, vuv and
    bap. *)
Module Demo.

Definition utt1_features : matrix :=
  Matrix 4 [[0.5; 5.0; 1.0; 0.25]; [0.5; 5.1; 1.0; 0.25]; [0.5; 5.2; 1.0; 0.25];
            [0.5; 5.3; 1.0; 0.25]; [0.5; 5.4; 1.0; 0.25]]%float.

Definition utt2_features : matrix :=
  Matrix 4 [[0.75; 4.5; 1.0; 0.125]; [0.75; 4.6; 1.0; 0.125]]%float.

(** T x D atom labels: one amplitude per frame. *)
Definition utt1_label : ndarray := Arr2 [[0.5]; [0.0]; [-2.0]]%float.
Definition utt2_label : ndarray := Arr2 [[0.25]; [0.0]]%float.

Definition amplitudes (label : ndarray) : list float :=
  match label with
  | Arr1 a => a
  | Arr2 a => map (fun r => default 0%float (head r)) a
  | Arr3 a => map (fun r => default 0%float (head r ≫= head)) a
  end.

#[export] Instance externals : Externals := {|
  atoms := list float;
  handler := unit;
  path_join := fun a b => a +:+ "/" +:+ b;
  realpath := fun p => p;
  basename := fun p => p;
  log_f0_silence_threshold := 3.4011973816621555%float;
  lf0_zero := 0%float;
  np_fromfile := fun path =>
    if String.eqb path "labels/utt1.phrase"
    then Ok [4.0; 4.0; 4.0; 4.0; 4.0]%float
    else if String.eqb path "labels/utt2.phrase"
    then Ok [4.5; 3.0]%float
    else Raise IOError;
  WorldFeatLabelGen_load_sample := fun id_name _ _ =>
    if String.eqb id_name "utt1" then Ok utt1_features
    else if String.eqb id_name "utt2" then Ok utt2_features
    else Raise IOError;
  AtomLabelGen_load_sample := fun id_name _ _ =>
    if String.eqb id_name "utt1" then Ok utt1_label
    else if String.eqb id_name "utt2" then Ok utt2_label
    else Raise IOError;
  labels_to_atoms := fun label _ _ _ => amplitudes label;
  atoms_to_lf0 := fun a n => take n (a ++ replicate n 0%float);
  AcousticModelTrainer := fun _ _ => tt;
  run_world_synth := fun _ hp => Ok hp;
  ModelTrainer_synthesize := fun _ _ hp => Ok hp;
  ModelTrainer_synth := fun _ hp _ => Ok hp
|}.

Definition hparams : HParams := {|
  world_dir := Value "world";
  num_coded_sps := 1;
  thetas := [0.03]%float;
  hp_k := 6;
  frame_size_ms := 5;
  min_atom_amp := 0.3%float;
  synth_acoustic_model_path := None;
  synth_file_suffix := "_e3";
  weight_zero := PyNone;
  weight_non_zero := PyNone
|}.

Definition self : trainer unit := {|
  OutputGen := {| dir_labels := "labels"; ext_phrase := ".phrase" |};
  AudioGen := {| dir_labels := "world"; ext_phrase := ".phrase" |};
  dir_extracted_acoustic_features := "../WORLD";
  model_handler := tt;
  f_synthesize := bound_synthesize
|}.

Definition st0 : state unit :=
  {| st_self := self; st_hparams := hparams; st_calls := [] |}.

Definition synth_output : gmap string ndarray :=
  <["utt2" := utt2_label]> (<["utt1" := utt1_label]> ∅).

(** The same hyper-parameters with an acoustic model to generate mgc and bap. *)
Definition hparams_acoustic : HParams := {|
  world_dir := Value "world";
  num_coded_sps := 1;
  thetas := [0.03]%float;
  hp_k := 6;
  frame_size_ms := 5;
  min_atom_amp := 0.3%float;
  synth_acoustic_model_path := Some "nn/acoustic.nn";
  synth_file_suffix := "_e3";
  weight_zero := PyNone;
  weight_non_zero := PyNone
|}.

Definition st_acoustic : state unit :=
  {| st_self := self; st_hparams := hparams_acoustic; st_calls := [] |}.

(** What the model computes on the instance. *)
Definition recon_dict : gmap string (list float) :=
  match get_recon_from_synth_output self synth_output hparams with
  | Ok recon_dict => recon_dict
  | Raise _ => ∅
  end.

Definition arrays : gmap string matrix :=
  match run_atom_synth ["utt1"; "utt2"] synth_output st0 with
  | Ok (Some arrays, _) => arrays
  | _ => ∅
  end.

End Demo.

(** ** Further predicates and values used in the statements *)

(** [m'] is [m] with the column third from the end replaced by [vals]. *)
Definition overridden (vals : list float) (m m' : matrix) : Prop :=
  ncols m' = ncols m /\ nrows m' = nrows m /\ wf_matrix m' /\
  forall c i : nat,
    i < nrows m ->
    entry m' c i = if decide (c = ncols m - 3) then vals !! i else entry m c i.

(** ** The test harness: [_get_id_list] *)

(** [c in chars] *)
Definition char_in (chars : list Ascii.ascii) (c : Ascii.ascii) : bool :=
  existsb (Ascii.eqb c) chars.

(** Leading characters of [chars] removed. *)
Fixpoint lstrip (chars : list Ascii.ascii) (s : list Ascii.ascii) : list Ascii.ascii :=
  match s with
  | [] => []
  | c :: s' => if char_in chars c then lstrip chars s' else s
  end.

(** Trailing characters of [chars] removed. *)
Definition rstrip (chars : list Ascii.ascii) (s : list Ascii.ascii) : list Ascii.ascii :=
  reverse (lstrip chars (reverse s)).

(** [s.strip(chars)] *)
Definition py_strip (chars : list Ascii.ascii) (s : string) : string :=
  String.string_of_list_ascii (rstrip chars (lstrip chars (String.list_ascii_of_string s))).

(** The characters of [' \t\n\r']. *)
Definition id_list_blanks : list Ascii.ascii :=
  [Ascii.ascii_of_nat 32; Ascii.ascii_of_nat 9; Ascii.ascii_of_nat 10;
   Ascii.ascii_of_nat 13].

(** [_get_id_list], lines 61-64, on the lines [f.readlines()] returned. *)
Definition get_id_list (lines : list string) : list string :=
  map (py_strip id_list_blanks) lines.

(** ** More of the concrete instance *)

Module DemoMore.

(** The features [load_extracted_audio_features] loads on the instance. *)
Definition loaded : gmap string matrix :=
  match load_extracted_audio_features (E := Demo.externals) Demo.self
          Demo.synth_output Demo.hparams with
  | Ok org_output => org_output
  | Raise _ => ∅
  end.

End DemoMore.

(** * Properties *)

(** ** Auxiliary results *)

Section Results.

Lemma rbind_Ok {A B : Type} (r : result A) (f : A -> result B) (b : B) :
  rbind r f = Ok b -> exists a, r = Ok a /\ f a = Ok b.
Proof. destruct r as [a|e]; simpl; [eauto | discriminate]. Qed.

Lemma for_each_ext {A S : Type} (f g : A -> S -> result S) (l : list A) (s : S) :
  (forall a s', f a s' = g a s') -> for_each f l s = for_each g l s.
Proof.
  intros Hfg. revert s. induction l as [|a l IH]; intros s; simpl; [done|].
  rewrite Hfg. destruct (g a s); simpl; auto.
Qed.

End Results.

Tactic Notation "inv_bind" hyp(H) :=
  let a := fresh "a" in
  let Ha := fresh "Ha" in
  apply rbind_Ok in H; destruct H as (a & Ha & H).

Tactic Notation "inv_bind" hyp(H) "as" simple_intropattern(a) ident(Ha) :=
  apply rbind_Ok in H; destruct H as (a & Ha & H).

Section Columns.

Implicit Types (m : matrix) (v : slice) (xs : list float).

Lemma broadcast_same (n : nat) xs : length xs = n -> broadcast n xs = Ok xs.
Proof. intros <-. unfold broadcast. by rewrite Nat.eqb_refl. Qed.

Lemma write_column_lookup (c start : nat) xs (rs : list (list float)) (i : nat) :
  write_column c start xs rs !! i
  = (fun r => match (if decide (start <= i) then xs !! (i - start) else None) with
              | Some x => <[c := x]> r
              | None => r
              end) <$> rs !! i.
Proof. unfold write_column. by rewrite list_lookup_imap. Qed.

Lemma write_column_length (c start : nat) xs (rs : list (list float)) :
  length (write_column c start xs rs) = length rs.
Proof. unfold write_column. apply length_imap. Qed.

Lemma write_column_wf (n c start : nat) xs (rs : list (list float)) :
  Forall (fun r => length r = n) rs ->
  Forall (fun r => length r = n) (write_column c start xs rs).
Proof.
  intros Hwf. apply Forall_lookup. intros i r Hi.
  rewrite write_column_lookup in Hi.
  destruct (rs !! i) as [r0|] eqn:Hr0; simpl in Hi; [|discriminate].
  injection Hi as <-.
  pose proof (Forall_lookup_1 _ _ _ _ Hwf Hr0) as Hlen. simpl in Hlen.
  destruct (if decide (start <= i) then xs !! (i - start) else None);
    [by rewrite length_insert | done].
Qed.

Lemma set_column_Ok m v c xs m' :
  set_column m v c xs = Ok m' ->
  exists ys, c < ncols m /\ broadcast (sl_len v) xs = Ok ys /\
             m' = Matrix (ncols m) (write_column c (sl_start v) ys (rows m)).
Proof.
  unfold set_column. destruct (Nat.ltb_spec c (ncols m)) as [Hc|_]; [|discriminate].
  intros H. inv_bind H. injection H as <-. eauto.
Qed.

Lemma set_column_shape m v c xs m' :
  set_column m v c xs = Ok m' ->
  ncols m' = ncols m /\ nrows m' = nrows m /\ (wf_matrix m -> wf_matrix m').
Proof.
  intros (ys & _ & _ & ->)%set_column_Ok. unfold nrows, wf_matrix; simpl.
  split; [done|]. split; [apply write_column_length|]. apply write_column_wf.
Qed.

(** What a write through a view leaves in each cell. *)
Lemma set_column_entry m v c xs m' (c' i : nat) :
  wf_matrix m ->
  length xs = sl_len v ->
  set_column m v c xs = Ok m' ->
  i < nrows m ->
  entry m' c' i
  = if decide (c' = c /\ sl_start v <= i < sl_start v + sl_len v)
    then xs !! (i - sl_start v)
    else entry m c' i.
Proof.
  intros Hwf Hlen (ys & Hc & Hb & ->)%set_column_Ok Hi.
  rewrite broadcast_same in Hb by done. injection Hb as <-.
  unfold entry; simpl. rewrite write_column_lookup.
  destruct (lookup_lt_is_Some_2 (rows m) i Hi) as [r Hr]. rewrite Hr; simpl.
  pose proof (Forall_lookup_1 _ _ _ _ Hwf Hr) as Hr_len. simpl in Hr_len.
  destruct (decide (sl_start v <= i)) as [Hs|Hs].
  - destruct (xs !! (i - sl_start v)) as [x|] eqn:Hx.
    + apply lookup_lt_Some in Hx.
      destruct (decide (c' = c)) as [->|Hne].
      * rewrite decide_True by lia.
        rewrite list_lookup_insert_eq by lia. done.
      * rewrite decide_False by tauto.
        by rewrite list_lookup_insert_ne.
    + apply lookup_ge_None in Hx. rewrite decide_False by lia. done.
  - rewrite decide_False by lia. done.
Qed.

Lemma column_Ok m c col :
  column m c = Ok col ->
  c < ncols m /\ col = map (fun r => default 0%float (r !! c)) (rows m).
Proof.
  unfold column. destruct (Nat.ltb_spec c (ncols m)); [|discriminate].
  by intros [= <-].
Qed.

Lemma column_lookup m c col (i : nat) :
  wf_matrix m -> column m c = Ok col -> col !! i = entry m c i.
Proof.
  intros Hwf [Hc ->]%column_Ok. rewrite list_lookup_fmap. unfold entry.
  destruct (rows m !! i) as [r|] eqn:Hr; simpl; [|done].
  pose proof (Forall_lookup_1 _ _ _ _ Hwf Hr) as Hlen. simpl in Hlen.
  destruct (lookup_lt_is_Some_2 r c) as [x Hx]; [lia|]. by rewrite Hx.
Qed.

Lemma column_length m c col : column m c = Ok col -> length col = nrows m.
Proof. intros [_ ->]%column_Ok. unfold nrows. by rewrite length_map. Qed.

Lemma slice_of_lookup {A : Type} v (l : list A) (i : nat) :
  slice_of v l !! i = if decide (i < sl_len v) then l !! (sl_start v + i) else None.
Proof.
  unfold slice_of. destruct (decide (i < sl_len v)).
  - rewrite lookup_take_lt by done. by rewrite lookup_drop.
  - rewrite lookup_take_ge by lia. done.
Qed.

End Columns.

Section Trimming.

Lemma int_half_bounds (d : Z) : (0 <= d)%Z -> (0 <= int_half d <= d)%Z.
Proof.
  intros Hd. unfold int_half. split.
  - apply Z.quot_pos; lia.
  - apply Z.quot_le_upper_bound; lia.
Qed.

Lemma run_atom_synth_trim_spec (n m : nat) :
  m <= n ->
  run_atom_synth_trim n m
  = Ok (Slice (Z.to_nat (int_half (Z.of_nat n - Z.of_nat m))) m).
Proof.
  intros Hle. unfold run_atom_synth_trim.
  set (d := (Z.of_nat n - Z.of_nat m)%Z).
  assert (Hd : (0 <= d)%Z) by (unfold d; lia).
  pose proof (int_half_bounds d Hd) as [Hlo Hhi].
  unfold trim_end_sample, whole; simpl.
  destruct (Z.ltb_spec (int_half d) 0) as [?|_]; [lia|]. simpl.
  destruct (Z.ltb_spec (d - int_half d) 0) as [?|_]; [lia|].
  f_equal. f_equal; unfold d in *; lia.
Qed.

End Trimming.

Section TrimmingMore.

Lemma int_half_neg (d : Z) :
  (d < 0)%Z -> (int_half d < 0)%Z \/ (d - int_half d < 0)%Z.
Proof.
  intros Hd. unfold int_half.
  pose proof (Z.quot_rem' d 2) as Hqr.
  pose proof (Z.rem_bound_pos_neg d 2) as Hr. lia.
Qed.

Lemma run_atom_synth_trim_Ok (n m : nat) (v : slice) :
  run_atom_synth_trim n m = Ok v ->
  m <= n /\ v = Slice (Z.to_nat (int_half (Z.of_nat n - Z.of_nat m))) m /\
  sl_start v + sl_len v <= n.
Proof.
  intros Hv.
  destruct (decide (m <= n)) as [Hle|Hgt].
  - rewrite run_atom_synth_trim_spec in Hv by done. injection Hv as <-.
    split; [done|]. split; [done|]. simpl.
    pose proof (int_half_bounds (Z.of_nat n - Z.of_nat m)). lia.
  - exfalso. unfold run_atom_synth_trim, trim_end_sample in Hv.
    destruct (int_half_neg (Z.of_nat n - Z.of_nat m)) as [Hneg|Hneg]; [lia| |].
    + destruct (Z.ltb_spec (int_half (Z.of_nat n - Z.of_nat m)) 0); [|lia].
      discriminate.
    + destruct (Z.ltb_spec (int_half (Z.of_nat n - Z.of_nat m)) 0);
        [discriminate|]. simpl in Hv.
      destruct (Z.ltb_spec (Z.of_nat n - Z.of_nat m
                            - int_half (Z.of_nat n - Z.of_nat m)) 0); [|lia].
      discriminate.
Qed.

End TrimmingMore.

Lemma gen_figure_from_output_trim_odd (len_lf0 q : nat) :
  gen_figure_from_output_trim (len_lf0 + 2 * q + 1) len_lf0
  = Ok (Slice (q + 1) len_lf0).
Proof.
  unfold gen_figure_from_output_trim.
  set (d := (Z.of_nat (len_lf0 + 2 * q + 1) - Z.of_nat len_lf0)%Z).
  assert (Hq : int_half d = Z.of_nat q).
  { unfold int_half. rewrite Z.quot_div_nonneg by (unfold d; lia).
    symmetry. apply (Z.div_unique _ _ _ 1); unfold d; lia. }
  rewrite Hq. unfold trim_end_sample, whole; simpl.
  destruct (Z.ltb_spec (Z.of_nat q) 0) as [?|_]; [lia|]. simpl.
  destruct (Z.ltb_spec (Z.of_nat q + 1) 0) as [?|_]; [lia|].
  f_equal. f_equal; lia.
Qed.

Section Stitching.

Context {E : Externals}.

Lemma vuv_of_length (lf0 : list float) : length (vuv_of lf0) = length lf0.
Proof. unfold vuv_of. apply length_map. Qed.

Lemma stitched_columns (c : nat) (lf0 : list float) (m m' : matrix) :
  wf_matrix m ->
  stitched c lf0 m m' ->
  exists v col_lf0 col_vuv,
    run_atom_synth_trim (nrows m) (length lf0) = Ok v /\
    nrows m' = nrows m /\ wf_matrix m' /\
    column m' c = Ok col_lf0 /\
    column m' (c + 1) = Ok col_vuv /\
    slice_of v col_lf0 = lf0 /\
    slice_of v col_vuv = vuv_of lf0.
Proof.
  intros Hwf (v & m1 & Hv & H1 & H2).
  pose proof (run_atom_synth_trim_Ok _ _ _ Hv) as (Hle & Hveq & Hin).
  assert (Hlen : sl_len v = length lf0) by (subst v; done).
  pose proof (set_column_shape _ _ _ _ _ H1) as (Hc1 & Hr1 & Hwf1).
  pose proof (set_column_shape _ _ _ _ _ H2) as (Hc2 & Hr2 & Hwf2).
  specialize (Hwf1 Hwf). specialize (Hwf2 Hwf1).
  pose proof (set_column_Ok _ _ _ _ _ H1) as (? & Hlt1 & _).
  pose proof (set_column_Ok _ _ _ _ _ H2) as (? & Hlt2 & _).
  assert (Hcol : forall c', c' < ncols m' -> exists col, column m' c' = Ok col).
  { intros c' Hc'. unfold column.
    destruct (Nat.ltb_spec c' (ncols m')); [eauto | lia]. }
  destruct (Hcol c) as [col_lf0 Hcol_lf0]; [lia|].
  destruct (Hcol (c + 1)) as [col_vuv Hcol_vuv]; [lia|].
  exists v, col_lf0, col_vuv.
  split; [done|]. split; [lia|]. split; [done|].
  split; [done|]. split; [done|].
  assert (Hcell : forall c' i, i < length lf0 ->
            entry m' c' (sl_start v + i)
            = if decide (c' = c + 1) then vuv_of lf0 !! i
              else if decide (c' = c) then lf0 !! i
              else entry m c' (sl_start v + i)).
  { intros c' i Hi.
    rewrite (set_column_entry m1 v (c + 1) (vuv_of lf0) m') by
      (try done; rewrite ?vuv_of_length; lia).
    rewrite (set_column_entry m v c lf0 m1) by (try done; lia).
    replace (sl_start v + i - sl_start v) with i by lia.
    destruct (decide (c' = c + 1)) as [->|Hne1].
    - rewrite decide_True by lia. done.
    - rewrite decide_False by tauto.
      destruct (decide (c' = c)) as [->|Hne2].
      + rewrite decide_True by lia. done.
      + rewrite decide_False by tauto. done. }
  split; apply list_eq; intros i; rewrite slice_of_lookup.
  - destruct (decide (i < sl_len v)) as [Hi|Hi].
    + rewrite (column_lookup m' c) by done. rewrite Hcell by lia.
      rewrite decide_False by lia. rewrite decide_True by done. done.
    + symmetry. apply lookup_ge_None. lia.
  - destruct (decide (i < sl_len v)) as [Hi|Hi].
    + rewrite (column_lookup m' (c + 1)) by done. rewrite Hcell by lia.
      rewrite decide_True by done. done.
    + symmetry. apply lookup_ge_None. rewrite vuv_of_length. lia.
Qed.

Lemma slice_of_whole {A : Type} (v : slice) (l : list A) :
  sl_start v = 0 -> sl_len v = length l -> slice_of v l = l.
Proof.
  intros H0 Hl. unfold slice_of. rewrite H0, Hl. simpl.
  by rewrite firstn_all.
Qed.

(** One pass of the loop of [run_atom_synth]. *)
Lemma stitch_Ok (c : nat) (id_name : string) (lf0 : list float)
    (full_output r : full_output_t) :
  stitch c (id_name, lf0) full_output = Ok r ->
  exists arrays m m',
    full_output = Some arrays /\ arrays !! id_name = Some m /\
    stitched c lf0 m m' /\ r = Some (<[id_name := m']> arrays).
Proof.
  unfold stitch. destruct full_output as [arrays|]; [|discriminate].
  destruct (arrays !! id_name) as [m|] eqn:Hm; [|discriminate].
  intros H. inv_bind H. rename a into v. inv_bind H. rename a into m1.
  inv_bind H. rename a into m'. injection H as <-.
  exists arrays, m, m'. repeat split; try done.
  exists v, m1. done.
Qed.

Lemma stitch_loop (c : nat) (l : list (string * list float)) :
  NoDup l.*1 ->
  forall (arrays : gmap string matrix) (r : full_output_t),
    map_Forall (fun _ m => wf_matrix m) arrays ->
    for_each (stitch c) l (Some arrays) = Ok r ->
    exists arrays',
      r = Some arrays' /\
      (forall id_name lf0, (id_name, lf0) ∈ l ->
         exists m m', arrays !! id_name = Some m /\ stitched c lf0 m m' /\
                      arrays' !! id_name = Some m') /\
      (forall id_name, id_name ∉ l.*1 -> arrays' !! id_name = arrays !! id_name).
Proof.
  induction l as [|[id0 lf00] l IH]; intros Hnd arrays r Hwf Hrun;
    cbn [for_each] in Hrun.
  - injection Hrun as <-. exists arrays. split; [done|].
    split; [|done]. intros ? ? Hin. by apply elem_of_nil in Hin.
  - rewrite fmap_cons in Hnd. apply NoDup_cons in Hnd as [Hfresh Hnd].
    inv_bind Hrun. rename a into r1.
    apply stitch_Ok in Ha as (arrays0 & m & m' & [= <-] & Hm & Hst & ->).
    assert (Hwf' : map_Forall (fun _ m => wf_matrix m) (<[id0 := m']> arrays)).
    { apply map_Forall_insert_2; [|done].
      destruct (stitched_columns c lf00 m m') as (? & ? & ? & _ & _ & Hw & _);
        [by eapply Hwf | done | done]. }
    destruct (IH Hnd _ _ Hwf' Hrun) as (arrays' & -> & Hin & Hout).
    exists arrays'. split; [done|]. split.
    + intros id_name lf0 [[= -> ->]|Hel]%elem_of_cons.
      * exists m, m'. split; [done|]. split; [done|].
        rewrite Hout by done. apply lookup_insert_eq.
      * destruct (Hin _ _ Hel) as (n & n' & Hn & Hst' & Hn').
        assert (id_name <> id0).
        { intros ->. apply Hfresh. apply list_elem_of_fmap.
          by exists (id0, lf0). }
        rewrite lookup_insert_ne in Hn by done. eauto.
    + intros id_name Hnot. apply not_elem_of_cons in Hnot as [Hne Hnot].
      rewrite Hout by done. by rewrite lookup_insert_ne.
Qed.

End Stitching.

Section InsertLoops.

Context {A W : Type} (key : A -> string) (f : A -> result W).

Let body : A -> gmap string W -> result (gmap string W) :=
  fun a d => let? w := f a in Ok (<[key a := w]> d).

Lemma for_each_insert_Ok (l : list A) :
  NoDup (key <$> l) ->
  forall acc rd,
    for_each body l acc = Ok rd ->
    (forall a, a ∈ l -> exists w, f a = Ok w /\ rd !! key a = Some w) /\
    (forall k, k ∉ key <$> l -> rd !! k = acc !! k).
Proof.
  induction l as [|a0 l IH]; intros Hnd acc rd Hrun; cbn [for_each] in Hrun.
  - injection Hrun as <-. split; [|done].
    intros a Hin. by apply elem_of_nil in Hin.
  - rewrite fmap_cons in Hnd. apply NoDup_cons in Hnd as [Hfresh Hnd].
    inv_bind Hrun. unfold body in Ha. inv_bind Ha. injection Ha as <-.
    destruct (IH Hnd _ _ Hrun) as [Hin Hout]. split.
    + intros a [->|Hel]%elem_of_cons.
      * exists a1. split; [done|]. rewrite Hout by done.
        apply lookup_insert_eq.
      * by apply Hin.
    + intros k Hk. rewrite fmap_cons in Hk.
      apply not_elem_of_cons in Hk as [Hne Hk].
      rewrite Hout by done. by rewrite lookup_insert_ne.
Qed.

Lemma for_each_insert_total (l : list A) :
  (forall a, a ∈ l -> exists w, f a = Ok w) ->
  forall acc, exists rd, for_each body l acc = Ok rd.
Proof.
  induction l as [|a0 l IH]; intros Hf acc; cbn [for_each].
  - eauto.
  - destruct (Hf a0) as [w Hw]; [apply elem_of_cons; by left|].
    unfold body at 1. rewrite Hw. simpl. apply IH.
    intros a Ha. apply Hf. apply elem_of_cons. by right.
Qed.

Lemma for_each_insert_Forall (P : string -> W -> Prop) (l : list A) :
  (forall a w, f a = Ok w -> P (key a) w) ->
  forall acc rd,
    map_Forall P acc -> for_each body l acc = Ok rd -> map_Forall P rd.
Proof.
  intros Hf. induction l as [|a0 l IH]; intros acc rd Hacc Hrun;
    cbn [for_each] in Hrun.
  - by injection Hrun as <-.
  - inv_bind Hrun. unfold body in Ha. inv_bind Ha. injection Ha as <-.
    eapply IH; [|done]. apply map_Forall_insert_2; auto.
Qed.

Lemma for_each_insert_dom (l : list A) :
  forall acc rd k,
    for_each body l acc = Ok rd -> is_Some (rd !! k) ->
    k ∈ key <$> l \/ is_Some (acc !! k).
Proof.
  induction l as [|a0 l IH]; intros acc rd k Hrun Hk; cbn [for_each] in Hrun.
  - injection Hrun as <-. by right.
  - inv_bind Hrun. unfold body in Ha. inv_bind Ha. injection Ha as <-.
    rewrite fmap_cons.
    destruct (IH _ _ _ Hrun Hk) as [Hin|Hacc].
    + left. apply elem_of_cons. by right.
    + destruct (decide (key a0 = k)) as [<-|Hne].
      * left. apply elem_of_cons. by left.
      * right. by rewrite lookup_insert_ne in Hacc.
Qed.

End InsertLoops.

Section Reconstruction.

Context {E : Externals}.

Implicit Types (self : trainer handler) (hp : HParams)
  (synth_output : gmap string ndarray).

Lemma get_recon_from_synth_output_loop self synth_output hp :
  get_recon_from_synth_output self synth_output hp
  = for_each (fun a d =>
                let? w := reconstruct self hp a.1 a.2 in Ok (<[a.1 := w]> d))
             (map_to_list synth_output) ∅.
Proof.
  unfold get_recon_from_synth_output. apply for_each_ext. by intros [? ?] ?.
Qed.

Lemma get_recon_Ok self synth_output hp rd :
  get_recon_from_synth_output self synth_output hp = Ok rd ->
  (forall id_name label, synth_output !! id_name = Some label ->
     exists lf0, reconstruct self hp id_name label = Ok lf0 /\
                 rd !! id_name = Some lf0) /\
  (forall id_name, is_Some (rd !! id_name) -> is_Some (synth_output !! id_name)).
Proof.
  rewrite get_recon_from_synth_output_loop. intros Hrun. split.
  - intros id_name label Hl.
    apply (for_each_insert_Ok fst (fun a => reconstruct self hp a.1 a.2)) in Hrun
      as [Hin _]; [|apply NoDup_fst_map_to_list].
    apply (Hin (id_name, label)). by apply elem_of_map_to_list.
  - intros id_name Hsome.
    apply (for_each_insert_dom fst (fun a => reconstruct self hp a.1 a.2)
             _ _ _ id_name) in Hrun; [|done].
    destruct Hrun as [Hin|[? Hempty]]; [|by rewrite lookup_empty in Hempty].
    apply list_elem_of_fmap in Hin as ([k label] & -> & Hin).
    apply elem_of_map_to_list in Hin. eauto.
Qed.

Lemma get_recon_total self synth_output hp :
  (forall id_name label, synth_output !! id_name = Some label ->
     exists lf0, reconstruct self hp id_name label = Ok lf0) ->
  exists rd, get_recon_from_synth_output self synth_output hp = Ok rd.
Proof.
  intros Hrec. rewrite get_recon_from_synth_output_loop.
  apply (for_each_insert_total fst (fun a => reconstruct self hp a.1 a.2)).
  intros [id_name label] Hin. apply elem_of_map_to_list in Hin. eauto.
Qed.

Lemma add_phrase_Ok (reconstruction raw : list float) :
  let phrase_curve := take (length reconstruction) raw in
  add_phrase reconstruction phrase_curve
  = Ok (zip_with PrimFloat.add (take (length phrase_curve) reconstruction)
                 phrase_curve
        ++ drop (length phrase_curve) reconstruction).
Proof.
  intros phrase_curve. unfold add_phrase.
  rewrite broadcast_same; [done|].
  unfold phrase_curve. rewrite !length_take. lia.
Qed.

Lemma add_phrase_lookup (reconstruction phrase_curve summed : list float)
    (i : nat) (x : float) :
  length phrase_curve <= length reconstruction ->
  summed = zip_with PrimFloat.add (take (length phrase_curve) reconstruction)
                    phrase_curve
           ++ drop (length phrase_curve) reconstruction ->
  reconstruction !! i = Some x ->
  summed !! i = Some (match phrase_curve !! i with
                      | Some p => PrimFloat.add x p
                      | None => x
                      end).
Proof.
  intros Hle -> Hx.
  assert (Hzl : length (zip_with PrimFloat.add
                          (take (length phrase_curve) reconstruction)
                          phrase_curve) = length phrase_curve).
  { rewrite length_zip_with, length_take. lia. }
  destruct (phrase_curve !! i) as [p|] eqn:Hp.
  - pose proof (lookup_lt_Some _ _ _ Hp) as Hi.
    rewrite lookup_app_l by lia.
    rewrite lookup_zip_with. rewrite lookup_take_lt by done.
    rewrite Hx, Hp. done.
  - apply lookup_ge_None in Hp.
    rewrite lookup_app_r by lia. rewrite Hzl, lookup_drop.
    replace (length phrase_curve + (i - length phrase_curve)) with i by lia.
    done.
Qed.

Lemma add_phrase_length (reconstruction phrase_curve : list float) :
  length phrase_curve <= length reconstruction ->
  length (zip_with PrimFloat.add (take (length phrase_curve) reconstruction)
                   phrase_curve
          ++ drop (length phrase_curve) reconstruction)
  = length reconstruction.
Proof.
  intros Hle. rewrite length_app, length_zip_with, length_take, length_drop. lia.
Qed.

Lemma reconstruct_Ok self hp id_name label lf0 :
  reconstruct self hp id_name label = Ok lf0 ->
  exists raw,
    np_fromfile (phrase_path self id_name) = Ok raw /\
    let label' := expand_label label in
    let reconstruction :=
      atoms_to_lf0 (labels_to_atoms label' (hp_k hp) (frame_size_ms hp)
                                    (min_atom_amp hp)) (len label') in
    let phrase_curve := take (length reconstruction) raw in
    lf0 = silence (zip_with PrimFloat.add
                     (take (length phrase_curve) reconstruction) phrase_curve
                   ++ drop (length phrase_curve) reconstruction).
Proof.
  unfold reconstruct. intros H. inv_bind H. rename a into raw.
  rewrite add_phrase_Ok in H. simpl in H. injection H as <-.
  exists raw. split; done.
Qed.

Lemma reconstruct_total self hp id_name label raw :
  np_fromfile (phrase_path self id_name) = Ok raw ->
  exists lf0, reconstruct self hp id_name label = Ok lf0.
Proof.
  intros Hraw. unfold reconstruct. rewrite Hraw. simpl.
  rewrite add_phrase_Ok. simpl. eauto.
Qed.

Lemma expand_label_len (label : ndarray) : len (expand_label label) = len label.
Proof.
  destruct label; simpl; try done. unfold expand_dims_axis1.
  apply length_map.
Qed.

End Reconstruction.

Section ReconstructionClaims.

Context {E : Externals}.

Lemma silence_lookup (l : list float) (i : nat) (y : float) :
  l !! i = Some y ->
  silence l !! i
  = Some (if PrimFloat.leb y log_f0_silence_threshold then lf0_zero else y).
Proof. intros Hy. unfold silence. by rewrite list_lookup_fmap, Hy. Qed.

End ReconstructionClaims.

Section RunAtomSynth.

Context {E : Externals} {ES : ExternalsSpec E}.

Implicit Types (st : state handler) (synth_output : gmap string ndarray).

Lemma load_extracted_audio_features_wf {V : Type} (self : trainer handler)
    (so : gmap string V) (hp : HParams) (loaded : gmap string matrix) :
  load_extracted_audio_features self so hp = Ok loaded ->
  map_Forall (fun _ m => wf_matrix m) loaded.
Proof.
  unfold load_extracted_audio_features.
  apply (for_each_insert_Forall (fun id_name : string => id_name)
           (fun id_name => WorldFeatLabelGen_load_sample id_name
                             (extracted_world_dir self hp) (num_coded_sps hp))
           (fun _ m => wf_matrix m)).
  - intros id_name m Hm. by eapply load_sample_wf.
  - apply map_Forall_empty.
Qed.

Lemma generate_audio_features_Ok (id_list : list string) st full_output st' :
  generate_audio_features id_list st = Ok (full_output, st') ->
  full_output = None /\
  exists self' hp',
    ModelTrainer_synth self' (st_hparams st) id_list = Ok hp' /\
    st_hparams st' = hp'.
Proof.
  unfold generate_audio_features.
  destruct (synth_acoustic_model_path (st_hparams st)); [|discriminate].
  intros H. inv_bind H. injection H as <- <-. split; [done|].
  eexists _, _. split; [exact Ha|done].
Qed.

Lemma stitch_loop_None (c : nat) (l : list (string * list float))
    (r : full_output_t) :
  for_each (stitch c) l None = Ok r -> l = [].
Proof. destruct l as [|[? ?] l]; [done|]. discriminate. Qed.

(** What [run_atom_synth] returns for an utterance with a reconstructed lf0. *)
Lemma run_atom_synth_Ok (file_id_list : list string) synth_output st
    (full_output : full_output_t) st' (rd : gmap string (list float))
    (id_name : string) (lf0 : list float) :
  run_atom_synth file_id_list synth_output st = Ok (full_output, st') ->
  get_recon_from_synth_output (st_self st') synth_output (st_hparams st') = Ok rd ->
  rd !! id_name = Some lf0 ->
  exists arrays m m',
    full_output = Some arrays /\ wf_matrix m /\
    stitched (num_coded_sps (st_hparams st')) lf0 m m' /\
    arrays !! id_name = Some m'.
Proof.
  unfold run_atom_synth. intros Hrun Hrd Hlf0.
  inv_bind Hrun as [fo0 st1] Hfeat.
  inv_bind Hrun as rd1 Hrd1. inv_bind Hrun as fo1 Hloop.
  injection Hrun as <- <-.
  rewrite Hrd in Hrd1. injection Hrd1 as <-.
  assert (Hin : (id_name, lf0) ∈ map_to_list rd) by by apply elem_of_map_to_list.
  destruct (synth_acoustic_model_path (st_hparams st)).
  - apply generate_audio_features_Ok in Hfeat as [-> _].
    apply stitch_loop_None in Hloop. rewrite Hloop in Hin.
    by apply elem_of_nil in Hin.
  - inv_bind Hfeat as loaded Hload. injection Hfeat as <- <-.
    apply load_extracted_audio_features_wf in Hload.
    apply stitch_loop in Hloop as (arrays' & -> & Hdone & _);
      [|apply NoDup_fst_map_to_list|done].
    destruct (Hdone _ _ Hin) as (m & m' & Hm & Hst & Hm').
    exists arrays', m, m'. split; [done|]. split; [by eapply Hload|]. done.
Qed.

End RunAtomSynth.

Lemma run_atom_synth_generate_raises {E : Externals}
    (file_id_list : list string) (synth_output : gmap string ndarray)
    (st : state handler) (path : string) :
  synth_acoustic_model_path (st_hparams st) = Some path ->
  synth_output <> ∅ ->
  forall r, run_atom_synth file_id_list synth_output st <> Ok r.
Proof.
  intros Hpath Hne [full_output st'] Hrun. unfold run_atom_synth in Hrun.
  rewrite Hpath in Hrun.
  inv_bind Hrun as [fo0 st1] Hfeat.
  inv_bind Hrun as rd Hrd. inv_bind Hrun as fo1 Hloop.
  apply generate_audio_features_Ok in Hfeat as [-> _].
  apply stitch_loop_None in Hloop. apply map_to_list_empty_iff in Hloop.
  apply map_choose in Hne as (id_name & label & Hl).
  apply get_recon_Ok in Hrd as [Hin _].
  destruct (Hin _ _ Hl) as (lf0 & _ & Hlf0).
  rewrite Hloop, lookup_empty in Hlf0. discriminate.
Qed.

Section Synthesis.

Context {E : Externals}.

Implicit Types (st : state handler) (synth_output : gmap string ndarray).

Lemma run_atom_synth_hparams (file_id_list : list string) synth_output st
    (full_output : full_output_t) st' :
  run_atom_synth file_id_list synth_output st = Ok (full_output, st') ->
  st_hparams st' = st_hparams st \/
  exists self' hp',
    ModelTrainer_synth self' (st_hparams st) file_id_list = Ok hp' /\
    st_hparams st' = hp'.
Proof.
  unfold run_atom_synth. intros Hrun.
  inv_bind Hrun as [fo0 st1] Hfeat.
  inv_bind Hrun as rd Hrd. inv_bind Hrun as fo1 Hloop.
  injection Hrun as <- <-.
  destruct (synth_acoustic_model_path (st_hparams st)).
  - right. by apply generate_audio_features_Ok in Hfeat as [_ ?].
  - left. inv_bind Hfeat as loaded Hload. by injection Hfeat as <- <-.
Qed.

End Synthesis.

Lemma float_zero_ne_one : 0%float <> 1%float.
Proof.
  intros H. apply (f_equal (fun x => PrimFloat.eqb x 0%float)) in H.
  vm_compute in H. discriminate.
Qed.

Lemma demo_externals_spec : ExternalsSpec Demo.externals.
Proof.
  split.
  - intros a n. simpl. rewrite length_take, length_app, length_replicate. lia.
  - intros id_name dir n m. simpl.
    destruct (String.eqb id_name "utt1"); [|destruct (String.eqb id_name "utt2")];
      intros [= <-]; repeat constructor.
Qed.

(** ** The statements of the specification *)

(** C1, as the code has it.  When [run_atom_synth] returns, every utterance
    with a reconstructed lf0 has a feature matrix in the result.  When that
    matrix has at least as many frames as the lf0 ([len_diff >= 0]), the
    frames [int(len_diff / 2)] to [int(len_diff / 2) + len(lf0)] of its column
    [num_coded_sps] hold the reconstructed lf0, and the same frames of column
    [num_coded_sps + 1] hold the voiced/unvoiced mask; the two columns are the
    lf0 and the mask themselves when the matrix has as many frames as the
    lf0. *)
Theorem run_atom_synth_stitches_lf0 {E : Externals} {ES : ExternalsSpec E}
    (file_id_list : list string) (synth_output : gmap string ndarray)
    (st st' : state handler) (full_output : full_output_t)
    (recon_dict : gmap string (list float)) (id_name : string) (lf0 : list float) :
  run_atom_synth file_id_list synth_output st = Ok (full_output, st') ->
  get_recon_from_synth_output (st_self st') synth_output (st_hparams st')
  = Ok recon_dict ->
  recon_dict !! id_name = Some lf0 ->
  exists arrays sample,
    full_output = Some arrays /\
    arrays !! id_name = Some sample /\
    (length lf0 <= nrows sample ->
     let len_diff := (Z.of_nat (nrows sample) - Z.of_nat (length lf0))%Z in
     let full_sample := Slice (Z.to_nat (int_half len_diff)) (length lf0) in
     exists col_lf0 col_vuv,
       column sample (num_coded_sps (st_hparams st')) = Ok col_lf0 /\
       column sample (num_coded_sps (st_hparams st') + 1) = Ok col_vuv /\
       slice_of full_sample col_lf0 = lf0 /\
       slice_of full_sample col_vuv = vuv_of lf0 /\
       (nrows sample = length lf0 -> col_lf0 = lf0 /\ col_vuv = vuv_of lf0)).
Proof.
  intros Hrun Hrd Hlf0.
  destruct (run_atom_synth_Ok _ _ _ _ _ _ _ _ Hrun Hrd Hlf0)
    as (arrays & m & m' & -> & Hwf & Hst & Hm').
  destruct (stitched_columns _ _ _ _ Hwf Hst)
    as (v & col_lf0 & col_vuv & Hv & Hrows & Hwf' & Hc & Hc' & Hs & Hs').
  exists arrays, m'. split; [done|]. split; [done|].
  intros Hle len_diff full_sample.
  apply run_atom_synth_trim_Ok in Hv as (_ & Hveq & _).
  assert (Hfs : v = full_sample).
  { rewrite Hveq. unfold full_sample, len_diff. by rewrite Hrows. }
  rewrite Hfs in Hs, Hs'.
  exists col_lf0, col_vuv. split; [exact Hc|]. split; [exact Hc'|].
  split; [exact Hs|]. split; [exact Hs'|].
  intros Hsame.
  apply column_length in Hc, Hc'.
  assert (Hstart : sl_start full_sample = 0).
  { unfold full_sample, len_diff. rewrite Hsame, Z.sub_diag. reflexivity. }
  split.
  - transitivity (slice_of full_sample col_lf0); [|done].
    symmetry. apply slice_of_whole; [done|]. simpl. lia.
  - transitivity (slice_of full_sample col_vuv); [|done].
    symmetry. apply slice_of_whole; [done|]. simpl. lia.
Qed.

Lemma run_atom_synth_stitches_lf0_witness :
  run_atom_synth (E := Demo.externals) ["utt1"; "utt2"] Demo.synth_output Demo.st0
  = Ok (Some Demo.arrays, Demo.st0) /\
  get_recon_from_synth_output (E := Demo.externals) Demo.self Demo.synth_output
                              Demo.hparams
  = Ok Demo.recon_dict /\
  Demo.recon_dict !! "utt1" = Some [4.5; 4; 0]%float /\
  exists sample col_lf0 col_vuv,
    Demo.arrays !! "utt1" = Some sample /\
    nrows sample = 5 /\
    column sample 1 = Ok col_lf0 /\
    column sample 2 = Ok col_vuv /\
    slice_of (Slice 1 3) col_lf0 = [4.5; 4; 0]%float /\
    slice_of (Slice 1 3) col_vuv = [1; 1; 0]%float.
Proof.
  assert (Hrun : run_atom_synth (E := Demo.externals) ["utt1"; "utt2"]
                   Demo.synth_output Demo.st0 = Ok (Some Demo.arrays, Demo.st0))
    by (vm_compute; reflexivity).
  assert (Hrd : get_recon_from_synth_output (E := Demo.externals) Demo.self
                  Demo.synth_output Demo.hparams = Ok Demo.recon_dict)
    by (vm_compute; reflexivity).
  assert (Hlf0 : Demo.recon_dict !! "utt1" = Some [4.5; 4; 0]%float)
    by (vm_compute; reflexivity).
  repeat (split; [assumption|]).
  destruct (@run_atom_synth_stitches_lf0 Demo.externals demo_externals_spec
              ["utt1"; "utt2"] Demo.synth_output Demo.st0 Demo.st0
              (Some Demo.arrays) Demo.recon_dict "utt1" [4.5; 4; 0]%float
              Hrun Hrd Hlf0)
    as (arrays & sample & Heq & Hsample & Hcols).
  apply (inj Some) in Heq. subst arrays.
  assert (Hrows : nrows sample = 5).
  { assert (H5 : (nrows <$> Demo.arrays !! "utt1") = Some 5)
      by (vm_compute; reflexivity).
    rewrite Hsample in H5. simpl in H5. by apply (inj Some) in H5. }
  destruct Hcols as (col_lf0 & col_vuv & Hc & Hc' & Hs & Hs' & _).
  { rewrite Hrows. simpl. lia. }
  rewrite Hrows in Hs, Hs'.
  exists sample, col_lf0, col_vuv.
  split; [exact Hsample|]. split; [exact Hrows|].
  split; [exact Hc|]. split; [exact Hc'|]. split; [exact Hs|exact Hs'].
Defined.

(** C1, as stated, fails when the features have more frames than the lf0:
    the features of [utt1] have five frames and its lf0 three, and column
    [num_coded_sps] of the returned matrix still has five values. *)
Lemma run_atom_synth_column_counterexample :
  run_atom_synth (E := Demo.externals) ["utt1"; "utt2"] Demo.synth_output Demo.st0
  = Ok (Some Demo.arrays, Demo.st0) /\
  get_recon_from_synth_output (E := Demo.externals) Demo.self Demo.synth_output
                              Demo.hparams
  = Ok Demo.recon_dict /\
  Demo.recon_dict !! "utt1" = Some [4.5; 4; 0]%float /\
  exists sample,
    Demo.arrays !! "utt1" = Some sample /\
    column sample 1 = Ok [5; 4.5; 4; 0; 5.4]%float /\
    column sample 1 <> Ok [4.5; 4; 0]%float.
Proof.
  split; [vm_compute; reflexivity|].
  split; [vm_compute; reflexivity|].
  split; [vm_compute; reflexivity|].
  eexists. split; [vm_compute; reflexivity|].
  split; [vm_compute; reflexivity|].
  vm_compute. intros [= H]. 
Qed.

(** C2.  For every utterance of [synth_output], the phrase curve read from
    the phrase file of the utterance and cut to the length of the
    reconstruction is added, frame by frame, to the first [len(phrase_curve)]
    frames of the reconstruction; then every frame whose value is at most
    [log(WorldFeatLabelGen.f0_silence_threshold)] is set to
    [WorldFeatLabelGen.lf0_zero], and the other frames keep their value. *)
Theorem get_recon_adds_phrase_and_silences {E : Externals}
    (self : trainer handler) (synth_output : gmap string ndarray) (hparams : HParams)
    (recon_dict : gmap string (list float)) (id_name : string) (label : ndarray) :
  get_recon_from_synth_output self synth_output hparams = Ok recon_dict ->
  synth_output !! id_name = Some label ->
  let reconstruction :=
    atoms_to_lf0 (labels_to_atoms (expand_label label) (hp_k hparams)
                                  (frame_size_ms hparams) (min_atom_amp hparams))
                 (len (expand_label label)) in
  exists raw summed lf0,
    np_fromfile (phrase_path self id_name) = Ok raw /\
    recon_dict !! id_name = Some lf0 /\
    let phrase_curve := take (length reconstruction) raw in
    length summed = length reconstruction /\
    length lf0 = length reconstruction /\
    (forall (i : nat) (x : float),
       reconstruction !! i = Some x ->
       summed !! i = Some (match phrase_curve !! i with
                           | Some p => PrimFloat.add x p
                           | None => x
                           end)) /\
    (forall (i : nat) (y : float),
       summed !! i = Some y ->
       lf0 !! i = Some (if PrimFloat.leb y log_f0_silence_threshold
                        then lf0_zero else y)).
Proof.
  intros Hrun Hlabel reconstruction.
  apply get_recon_Ok in Hrun as [Hin _].
  destruct (Hin _ _ Hlabel) as (lf0 & Hrec & Hlf0).
  apply reconstruct_Ok in Hrec as (raw & Hraw & Heq). simpl in Heq.
  fold reconstruction in Heq.
  set (phrase_curve := take (length reconstruction) raw) in *.
  assert (Hle : length phrase_curve <= length reconstruction).
  { unfold phrase_curve. rewrite length_take. lia. }
  eexists raw, _, lf0. split; [done|]. split; [done|]. simpl.
  split; [by apply add_phrase_length|].
  split; [|split].
  - rewrite Heq. unfold silence. rewrite length_map. by apply add_phrase_length.
  - intros i x Hx. by eapply add_phrase_lookup.
  - intros i y Hy. rewrite Heq. by apply silence_lookup.
Qed.

Lemma get_recon_adds_phrase_and_silences_witness :
  get_recon_from_synth_output (E := Demo.externals) Demo.self Demo.synth_output
                              Demo.hparams
  = Ok Demo.recon_dict /\
  Demo.synth_output !! "utt1" = Some Demo.utt1_label /\
  exists raw summed lf0,
    np_fromfile (Externals := Demo.externals) "labels/utt1.phrase" = Ok raw /\
    Demo.recon_dict !! "utt1" = Some lf0 /\
    length summed = 3 /\
    length lf0 = 3 /\
    (forall (i : nat) (x : float),
       [0.5; 0; -2]%float !! i = Some x ->
       summed !! i = Some (match take 3 raw !! i with
                           | Some p => PrimFloat.add x p
                           | None => x
                           end)) /\
    (forall (i : nat) (y : float),
       summed !! i = Some y ->
       lf0 !! i = Some (if PrimFloat.leb y 3.4011973816621555%float
                        then 0%float else y)).
Proof.
  assert (Hrd : get_recon_from_synth_output (E := Demo.externals) Demo.self
                  Demo.synth_output Demo.hparams = Ok Demo.recon_dict)
    by (vm_compute; reflexivity).
  assert (Hl : Demo.synth_output !! "utt1" = Some Demo.utt1_label)
    by (vm_compute; reflexivity).
  repeat (split; [assumption|]).
  exact (@get_recon_adds_phrase_and_silences Demo.externals Demo.self
           Demo.synth_output Demo.hparams Demo.recon_dict "utt1" Demo.utt1_label
           Hrd Hl).
Defined.

(** C3.  When the phrase file of every utterance can be read,
    [get_recon_from_synth_output] returns a dictionary that holds, for every
    entry [(id_name, label)] of [synth_output], an lf0 of [len(label)] frames.
    A two-dimensional label gives the lf0 of the T x 1 x D label obtained by
    expanding it along axis 1. *)
Theorem get_recon_lengths {E : Externals} {ES : ExternalsSpec E}
    (self : trainer handler) (synth_output : gmap string ndarray) (hparams : HParams) :
  (forall id_name label, synth_output !! id_name = Some label ->
     exists raw, np_fromfile (phrase_path self id_name) = Ok raw) ->
  exists recon_dict,
    get_recon_from_synth_output self synth_output hparams = Ok recon_dict /\
    (forall id_name label, synth_output !! id_name = Some label ->
       exists lf0, recon_dict !! id_name = Some lf0 /\ length lf0 = len label) /\
    (forall id_name a, synth_output !! id_name = Some (Arr2 a) ->
       exists lf0, recon_dict !! id_name = Some lf0 /\
                   reconstruct self hparams id_name (Arr3 (expand_dims_axis1 a))
                   = Ok lf0).
Proof.
  intros Hfiles.
  destruct (get_recon_total self synth_output hparams) as [rd Hrd].
  { intros id_name label Hl. destruct (Hfiles _ _ Hl) as [raw Hraw].
    by eapply reconstruct_total. }
  exists rd. split; [done|].
  pose proof (get_recon_Ok _ _ _ _ Hrd) as [Hin _]. split.
  - intros id_name label Hl. destruct (Hin _ _ Hl) as (lf0 & Hrec & Hlf0).
    exists lf0. split; [done|].
    apply reconstruct_Ok in Hrec as (raw & _ & ->). simpl.
    unfold silence. rewrite length_map, add_phrase_length.
    + by rewrite atoms_to_lf0_length, expand_label_len.
    + rewrite length_take. lia.
  - intros id_name a Hl. destruct (Hin _ _ Hl) as (lf0 & Hrec & Hlf0).
    exists lf0. split; [done|]. exact Hrec.
Qed.

Lemma get_recon_lengths_witness :
  exists recon_dict,
    get_recon_from_synth_output (E := Demo.externals) Demo.self Demo.synth_output
                                Demo.hparams = Ok recon_dict /\
    (forall id_name label, Demo.synth_output !! id_name = Some label ->
       exists lf0, recon_dict !! id_name = Some lf0 /\ length lf0 = len label) /\
    (forall id_name a, Demo.synth_output !! id_name = Some (Arr2 a) ->
       exists lf0, recon_dict !! id_name = Some lf0 /\
                   reconstruct (E := Demo.externals) Demo.self Demo.hparams id_name
                               (Arr3 (expand_dims_axis1 a)) = Ok lf0).
Proof.
  apply (@get_recon_lengths Demo.externals demo_externals_spec Demo.self
           Demo.synth_output Demo.hparams).
  intros id_name label H. unfold Demo.synth_output in H.
  apply lookup_insert_Some in H as [[<- _]|[_ H]]; [vm_compute; eauto|].
  apply lookup_insert_Some in H as [[<- _]|[_ H]]; [vm_compute; eauto|].
  by rewrite lookup_empty in H.
Defined.

(** C4. In [run_atom_synth], when the full sample has at least as many frames
    as the reconstructed lf0 ([len_diff >= 0]), trimming [int(len_diff / 2)]
    frames from the beginning and [len_diff - int(len_diff / 2)] frames from
    the end succeeds, removes [len_diff] frames in total, and leaves exactly
    as many frames as the reconstructed lf0 has. *)
Theorem run_atom_synth_trim_length (len_full_sample len_lf0 : nat) :
  let len_diff := (Z.of_nat len_full_sample - Z.of_nat len_lf0)%Z in
  (len_diff >= 0)%Z ->
  exists trimmed,
    run_atom_synth_trim len_full_sample len_lf0 = Ok trimmed /\
    Z.of_nat (sl_start trimmed) = int_half len_diff /\
    (Z.of_nat len_full_sample - Z.of_nat (sl_len trimmed) = len_diff)%Z /\
    sl_len trimmed = len_lf0.
Proof.
  intros len_diff Hd. eexists. split.
  - apply run_atom_synth_trim_spec. lia.
  - simpl. split; [|split; reflexivity].
    pose proof (int_half_bounds len_diff). fold len_diff. lia.
Qed.

Lemma run_atom_synth_trim_length_witness :
  (Z.of_nat 10 - Z.of_nat 7 >= 0)%Z /\
  exists trimmed,
    run_atom_synth_trim 10 7 = Ok trimmed /\
    Z.of_nat (sl_start trimmed) = 1%Z /\
    (Z.of_nat 10 - Z.of_nat (sl_len trimmed) = 3)%Z /\
    sl_len trimmed = 7.
Proof.
  split; [lia|]. apply (run_atom_synth_trim_length 10 7). lia.
Defined.

(** C5, at [len_diff = 0]: an original lf0 of three frames plotted against a
    predicted lf0 of three frames loses its first frame, and is one frame
    shorter than the predicted signal. *)
Theorem gen_figure_from_output_trim_even :
  gen_figure_from_output_trim 3 3 = Ok (Slice 1 2) /\
  sl_len (Slice 1 2) <> 3.
Proof. split; [reflexivity | simpl; lia]. Qed.

(** C6, with an acoustic model path.  For a non-empty [synth_output],
    [synthesize] raises [TypeError] inside [run_atom_synth] and the vocoder is
    never called; for an empty one the vocoder is called with [None].  In
    neither case does the vocoder receive a feature matrix. *)
Theorem synthesize_acoustic_model_fails :
  synthesize (E := Demo.externals) ["utt1"; "utt2"] Demo.synth_output
             Demo.st_acoustic = Raise TypeError /\
  exists st',
    synthesize (E := Demo.externals) [] ∅ Demo.st_acoustic = Ok st' /\
    last (st_calls st') = Some (Call_run_world_synth None Demo.hparams_acoustic).
Proof.
  split; [vm_compute; reflexivity|].
  eexists. split; vm_compute; reflexivity.
Qed.

(** C7, with an acoustic model path.  [generate_audio_features] returns
    [None], and [run_atom_synth] raises [TypeError] when it subscripts that
    value: no spectral or aperiodicity features are obtained. *)
Theorem run_atom_synth_acoustic_model_fails :
  (exists st', generate_audio_features (E := Demo.externals) ["utt1"; "utt2"]
                 Demo.st_acoustic = Ok (None, st')) /\
  run_atom_synth (E := Demo.externals) ["utt1"; "utt2"] Demo.synth_output
                 Demo.st_acoustic = Raise TypeError.
Proof. split; [eexists|]; vm_compute; reflexivity. Qed.

(** C8.  When [synth_ref_wcad] returns, and likewise when [synth_phrase]
    returns, [hparams.synth_file_suffix] has the value it had before the call,
    whatever the vocoder did to [hparams] in between.  [ModelTrainer.synth],
    which [synth_ref_wcad] reaches before it saves the suffix, is assumed to
    give the suffix back as it found it. *)
Theorem synth_file_suffix_restored {E : Externals}
    (file_id_list : list string) (st : state handler) :
  (forall self hparams id_list hparams',
     ModelTrainer_synth self hparams id_list = Ok hparams' ->
     synth_file_suffix hparams' = synth_file_suffix hparams) ->
  (forall st', synth_ref_wcad file_id_list st = Ok st' ->
     synth_file_suffix (st_hparams st') = synth_file_suffix (st_hparams st)) /\
  (forall st', synth_phrase file_id_list st = Ok st' ->
     synth_file_suffix (st_hparams st') = synth_file_suffix (st_hparams st)).
Proof.
  intros Hframe. split; intros st' Hrun.
  - unfold synth_ref_wcad in Hrun.
    inv_bind Hrun as synth_output Hload.
    inv_bind Hrun as [full_output st1] Hsynth.
    inv_bind Hrun as st2 Hworld. injection Hrun as <-. simpl.
    apply run_atom_synth_hparams in Hsynth as [->|(self' & hp' & Hs & ->)]; [done|].
    by eapply Hframe.
  - unfold synth_phrase in Hrun.
    inv_bind Hrun as full_output Hload.
    inv_bind Hrun as full_output' Hover.
    inv_bind Hrun as st2 Hcall. by injection Hrun as <-.
Qed.

Lemma synth_file_suffix_restored_witness :
  (exists st', synth_ref_wcad (E := Demo.externals) ["utt1"; "utt2"] Demo.st0 = Ok st') /\
  (exists st', synth_phrase (E := Demo.externals) ["utt1"; "utt2"] Demo.st0 = Ok st') /\
  (forall st', synth_ref_wcad (E := Demo.externals) ["utt1"; "utt2"] Demo.st0 = Ok st' ->
     synth_file_suffix (st_hparams st') = "_e3") /\
  (forall st', synth_phrase (E := Demo.externals) ["utt1"; "utt2"] Demo.st0 = Ok st' ->
     synth_file_suffix (st_hparams st') = "_e3").
Proof.
  split; [eexists; vm_compute; reflexivity|].
  split; [eexists; vm_compute; reflexivity|].
  apply (@synth_file_suffix_restored Demo.externals ["utt1"; "utt2"] Demo.st0).
  intros self hparams id_list hparams' H. simpl in H. by injection H as <-.
Defined.

(** C9.  With [p = min(0.99, 0.02 / len(thetas))] for a non-empty [thetas]:
    when [hparams] has no [weight_zero], or has it with value [None],
    [weight_non_zero] becomes [1 / p] and [weight_zero] becomes [1 / (1 - p)];
    when [weight_zero] has a value, [hparams] is left as it is. *)
Theorem init_weights_spec (thetas : list float) (hparams : HParams) :
  length thetas > 0 ->
  let p := py_min 0.99%float
                  (PrimFloat.div 0.02%float (float_of_nat (length thetas))) in
  match weight_zero hparams with
  | Missing | PyNone =>
      exists hparams',
        init_weights thetas hparams = Ok hparams' /\
        weight_non_zero hparams' = Value (PrimFloat.div 1%float p) /\
        weight_zero hparams'
        = Value (PrimFloat.div 1%float (PrimFloat.sub 1%float p))
  | Value _ => init_weights thetas hparams = Ok hparams
  end.
Proof.
  intros Hlen p. unfold init_weights, py_div_int.
  destruct (Nat.eqb_spec (length thetas) 0) as [?|_]; [lia|]. simpl.
  fold p. destruct (weight_zero hparams); [| |done]; eexists; split; done.
Qed.

Lemma init_weights_spec_witness :
  length [0.01; 0.02; 0.03; 0.04; 0.05]%float > 0 /\
  exists hparams',
    init_weights [0.01; 0.02; 0.03; 0.04; 0.05]%float Demo.hparams
    = Ok hparams' /\
    weight_non_zero hparams' = Value 250%float /\
    weight_zero hparams' = Value 1.0040160642570282%float.
Proof.
  split; [simpl; lia|].
  apply (init_weights_spec [0.01; 0.02; 0.03; 0.04; 0.05]%float Demo.hparams).
  simpl; lia.
Defined.

(** C10.  The value [run_atom_synth] writes into column [num_coded_sps + 1]
    for a frame of the reconstructed lf0 is 0.0 or 1.0, and it is 0.0 exactly
    when the lf0 of that frame is at most
    [log(WorldFeatLabelGen.f0_silence_threshold)]. *)
Theorem run_atom_synth_vuv_binary {E : Externals} {ES : ExternalsSpec E}
    (file_id_list : list string) (synth_output : gmap string ndarray)
    (st st' : state handler) (full_output : full_output_t)
    (recon_dict : gmap string (list float)) (id_name : string) (lf0 : list float) :
  run_atom_synth file_id_list synth_output st = Ok (full_output, st') ->
  get_recon_from_synth_output (st_self st') synth_output (st_hparams st')
  = Ok recon_dict ->
  recon_dict !! id_name = Some lf0 ->
  exists arrays sample full_sample col_vuv,
    full_output = Some arrays /\
    arrays !! id_name = Some sample /\
    run_atom_synth_trim (nrows sample) (length lf0) = Ok full_sample /\
    column sample (num_coded_sps (st_hparams st') + 1) = Ok col_vuv /\
    forall (i : nat) (x : float),
      lf0 !! i = Some x ->
      exists u, col_vuv !! (sl_start full_sample + i) = Some u /\
                (u = 0%float \/ u = 1%float) /\
                (u = 0%float <-> PrimFloat.leb x log_f0_silence_threshold = true).
Proof.
  intros Hrun Hrd Hlf0.
  destruct (run_atom_synth_Ok _ _ _ _ _ _ _ _ Hrun Hrd Hlf0)
    as (arrays & m & m' & -> & Hwf & Hst & Hm').
  destruct (stitched_columns _ _ _ _ Hwf Hst)
    as (v & col_lf0 & col_vuv & Hv & Hrows & Hwf' & Hc & Hc' & Hs & Hs').
  exists arrays, m', v, col_vuv. rewrite Hrows. repeat (split; [done|]).
  intros i x Hx.
  pose proof (lookup_lt_Some _ _ _ Hx) as Hi.
  apply run_atom_synth_trim_Ok in Hv as (_ & Hveq & _).
  assert (Hu : col_vuv !! (sl_start v + i) = vuv_of lf0 !! i).
  { rewrite <- Hs', slice_of_lookup. rewrite decide_True; [done|].
    subst v; simpl; lia. }
  rewrite Hu. unfold vuv_of. rewrite list_lookup_fmap, Hx. simpl.
  eexists. split; [reflexivity|].
  destruct (PrimFloat.leb x log_f0_silence_threshold).
  - split; [by left|]. done.
  - split; [by right|]. split; [|discriminate].
    intros H. symmetry in H. by apply float_zero_ne_one in H.
Qed.

Lemma run_atom_synth_vuv_binary_witness :
  run_atom_synth (E := Demo.externals) ["utt1"; "utt2"] Demo.synth_output Demo.st0
  = Ok (Some Demo.arrays, Demo.st0) /\
  get_recon_from_synth_output (E := Demo.externals) Demo.self Demo.synth_output
                              Demo.hparams
  = Ok Demo.recon_dict /\
  Demo.recon_dict !! "utt2" = Some [4.75; 0]%float /\
  exists arrays sample full_sample col_vuv,
    Some Demo.arrays = Some arrays /\
    arrays !! "utt2" = Some sample /\
    run_atom_synth_trim (nrows sample) 2 = Ok full_sample /\
    column sample 2 = Ok col_vuv /\
    forall (i : nat) (x : float),
      [4.75; 0]%float !! i = Some x ->
      exists u, col_vuv !! (sl_start full_sample + i) = Some u /\
                (u = 0%float \/ u = 1%float) /\
                (u = 0%float <-> PrimFloat.leb x 3.4011973816621555%float = true).
Proof.
  assert (Hrun : run_atom_synth (E := Demo.externals) ["utt1"; "utt2"]
                   Demo.synth_output Demo.st0 = Ok (Some Demo.arrays, Demo.st0))
    by (vm_compute; reflexivity).
  assert (Hrd : get_recon_from_synth_output (E := Demo.externals) Demo.self
                  Demo.synth_output Demo.hparams = Ok Demo.recon_dict)
    by (vm_compute; reflexivity).
  assert (Hlf0 : Demo.recon_dict !! "utt2" = Some [4.75; 0]%float)
    by (vm_compute; reflexivity).
  repeat (split; [assumption|]).
  exact (@run_atom_synth_vuv_binary Demo.externals demo_externals_spec
           ["utt1"; "utt2"] Demo.synth_output Demo.st0 Demo.st0 _ _ _ _
           Hrun Hrd Hlf0).
Defined.

(** ** Auxiliary results for the further properties *)

Section StitchingMore.

Context {E : Externals}.

Lemma stitched_shape (c : nat) (lf0 : list float) (m m' : matrix) :
  stitched c lf0 m m' ->
  ncols m' = ncols m /\ nrows m' = nrows m /\ c + 1 < ncols m /\
  length lf0 <= nrows m.
Proof.
  intros (v & m1 & Hv & H1 & H2).
  pose proof (run_atom_synth_trim_Ok _ _ _ Hv) as (Hle & _ & _).
  pose proof (set_column_shape _ _ _ _ _ H1) as (Hc1 & Hr1 & _).
  pose proof (set_column_shape _ _ _ _ _ H2) as (Hc2 & Hr2 & _).
  pose proof (set_column_Ok _ _ _ _ _ H2) as (? & Hlt2 & _).
  repeat split; lia.
Qed.

Lemma stitched_entry (c : nat) (lf0 : list float) (m m' : matrix) (c' i : nat) :
  wf_matrix m ->
  stitched c lf0 m m' ->
  let start := Z.to_nat (int_half (Z.of_nat (nrows m) - Z.of_nat (length lf0))) in
  entry m' c' i
  = if decide (c' = c + 1 /\ start <= i < start + length lf0)
    then vuv_of lf0 !! (i - start)
    else if decide (c' = c /\ start <= i < start + length lf0)
         then lf0 !! (i - start)
         else entry m c' i.
Proof.
  intros Hwf (v & m1 & Hv & H1 & H2) start.
  pose proof (run_atom_synth_trim_Ok _ _ _ Hv) as (Hle & Hveq & Hin).
  assert (Hstart : sl_start v = start) by (subst v; done).
  assert (Hlen : sl_len v = length lf0) by (subst v; done).
  pose proof (set_column_shape _ _ _ _ _ H1) as (Hc1 & Hr1 & Hwf1).
  specialize (Hwf1 Hwf).
  destruct (decide (i < nrows m)) as [Hi|Hi].
  - rewrite (set_column_entry m1 v (c + 1) (vuv_of lf0) m')
      by (try done; rewrite ?vuv_of_length; lia).
    rewrite (set_column_entry m v c lf0 m1) by (try done; lia).
    rewrite Hstart, Hlen.
    repeat case_decide; try done; lia.
  - pose proof (set_column_shape _ _ _ _ _ H2) as (_ & Hr2 & _).
    assert (Hnone : forall n : matrix, nrows n = nrows m -> entry n c' i = None).
    { intros n Hn. unfold entry. rewrite lookup_ge_None_2; [done|].
      unfold nrows in *. lia. }
    rewrite (Hnone m') by lia. rewrite (Hnone m) by done.
    rewrite Hstart in Hin. rewrite Hlen in Hin.
    repeat case_decide; try done; lia.
Qed.

Lemma set_column_total (m : matrix) (v : slice) (c : nat) (xs : list float) :
  c < ncols m ->
  length xs = sl_len v ->
  set_column m v c xs
  = Ok (Matrix (ncols m) (write_column c (sl_start v) xs (rows m))).
Proof.
  intros Hc Hlen. unfold set_column.
  destruct (Nat.ltb_spec c (ncols m)) as [_|?]; [|lia].
  by rewrite broadcast_same.
Qed.

Lemma stitch_total (c : nat) (id_name : string) (lf0 : list float)
    (arrays : gmap string matrix) (m : matrix) :
  arrays !! id_name = Some m ->
  c + 1 < ncols m ->
  length lf0 <= nrows m ->
  exists m', stitch c (id_name, lf0) (Some arrays) = Ok (Some (<[id_name := m']> arrays)).
Proof.
  intros Hm Hc Hle. unfold stitch. rewrite Hm.
  rewrite run_atom_synth_trim_spec by done. cbn [rbind].
  rewrite set_column_total by (simpl; lia). cbn [rbind].
  rewrite set_column_total by (simpl; rewrite ?vuv_of_length; lia).
  cbn [rbind]. eauto.
Qed.

Lemma stitch_loop_total (c : nat) (l : list (string * list float)) :
  NoDup l.*1 ->
  forall arrays : gmap string matrix,
    (forall id_name lf0, (id_name, lf0) ∈ l ->
       exists m, arrays !! id_name = Some m /\ c + 1 < ncols m /\
                 length lf0 <= nrows m) ->
    exists arrays', for_each (stitch c) l (Some arrays) = Ok (Some arrays').
Proof.
  induction l as [|[id0 lf00] l IH]; intros Hnd arrays Hall; cbn [for_each].
  - eauto.
  - rewrite fmap_cons in Hnd. apply NoDup_cons in Hnd as [Hfresh Hnd].
    destruct (Hall id0 lf00) as (m & Hm & Hc & Hle); [apply elem_of_cons; by left|].
    destruct (stitch_total c id0 lf00 arrays m Hm Hc Hle) as [m' ->]. simpl.
    apply IH; [done|]. intros id_name lf0 Hin.
    destruct (Hall id_name lf0) as (n & Hn & ? & ?); [apply elem_of_cons; by right|].
    exists n. split; [|done].
    rewrite lookup_insert_ne; [done|]. intros ->. apply Hfresh.
    apply list_elem_of_fmap. by exists (id_name, lf0).
Qed.

End StitchingMore.

Section RunAtomSynthMore.

Context {E : Externals} {ES : ExternalsSpec E}.

Implicit Types (st : state handler) (synth_output : gmap string ndarray).

(** [run_atom_synth] on features extracted from the audio. *)
Lemma run_atom_synth_extracted (file_id_list : list string) synth_output st
    (full_output : full_output_t) st' :
  synth_acoustic_model_path (st_hparams st) = None ->
  run_atom_synth file_id_list synth_output st = Ok (full_output, st') ->
  st' = st /\
  exists loaded rd arrays,
    load_extracted_audio_features (st_self st) synth_output (st_hparams st)
    = Ok loaded /\
    get_recon_from_synth_output (st_self st) synth_output (st_hparams st) = Ok rd /\
    full_output = Some arrays /\
    (forall id_name lf0, rd !! id_name = Some lf0 ->
       exists m m', loaded !! id_name = Some m /\ wf_matrix m /\
                    stitched (num_coded_sps (st_hparams st)) lf0 m m' /\
                    arrays !! id_name = Some m') /\
    (forall id_name, rd !! id_name = None -> arrays !! id_name = loaded !! id_name).
Proof.
  unfold run_atom_synth. intros Hpath Hrun. rewrite Hpath in Hrun.
  inv_bind Hrun as [fo0 st1] Hfeat.
  inv_bind Hfeat as loaded Hload. injection Hfeat as <- <-.
  inv_bind Hrun as rd Hrd. inv_bind Hrun as fo1 Hloop.
  injection Hrun as <- <-. split; [done|].
  pose proof (load_extracted_audio_features_wf _ _ _ _ Hload) as Hwf.
  apply stitch_loop in Hloop as (arrays' & -> & Hdone & Hout);
    [|apply NoDup_fst_map_to_list|done].
  exists loaded, rd, arrays'. repeat (split; [done|]). split.
  - intros id_name lf0 Hlf0.
    destruct (Hdone id_name lf0) as (m & m' & Hm & Hst & Hm');
      [by apply elem_of_map_to_list|].
    exists m, m'. split; [done|]. split; [by eapply Hwf|]. done.
  - intros id_name Hnone. apply Hout. intros Hin.
    apply list_elem_of_fmap in Hin as ([k lf0] & -> & Hin).
    apply elem_of_map_to_list in Hin. simpl in Hnone. congruence.
Qed.

End RunAtomSynthMore.

Section LoadExtracted.

Context {E : Externals}.

Lemma load_extracted_audio_features_Ok {V : Type} (self : trainer handler)
    (so : gmap string V) (hp : HParams) (org : gmap string matrix) :
  load_extracted_audio_features self so hp = Ok org ->
  (forall id_name, is_Some (so !! id_name) ->
     exists sample,
       WorldFeatLabelGen_load_sample id_name (extracted_world_dir self hp)
                                     (num_coded_sps hp) = Ok sample /\
       org !! id_name = Some sample) /\
  (forall id_name, so !! id_name = None -> org !! id_name = None).
Proof.
  unfold load_extracted_audio_features. intros Hrun.
  pose proof (NoDup_fst_map_to_list so) as Hnd.
  split.
  - intros id_name [v Hv].
    apply (for_each_insert_Ok (fun id_name : string => id_name)) in Hrun as [Hin _].
    + apply Hin. apply list_elem_of_fmap. exists (id_name, v).
      split; [done|]. by apply elem_of_map_to_list.
    + by rewrite list_fmap_id.
  - intros id_name Hnone.
    destruct (org !! id_name) as [m|] eqn:Hm; [|done]. exfalso.
    apply (for_each_insert_dom (fun id_name : string => id_name) _ _ _ _ id_name)
      in Hrun; [|by eexists].
    rewrite list_fmap_id in Hrun.
    destruct Hrun as [Hin|[? Hempty]]; [|by rewrite lookup_empty in Hempty].
    apply list_elem_of_fmap in Hin as ([k v] & -> & Hin).
    apply elem_of_map_to_list in Hin. simpl in Hnone. congruence.
Qed.

Lemma load_extracted_audio_features_total {V : Type} (self : trainer handler)
    (so : gmap string V) (hp : HParams) :
  (forall id_name, is_Some (so !! id_name) ->
     exists sample,
       WorldFeatLabelGen_load_sample id_name (extracted_world_dir self hp)
                                     (num_coded_sps hp) = Ok sample) ->
  exists org, load_extracted_audio_features self so hp = Ok org.
Proof.
  intros Hall. unfold load_extracted_audio_features.
  apply (for_each_insert_total (fun id_name : string => id_name)).
  intros id_name Hin. apply Hall.
  apply list_elem_of_fmap in Hin as ([k v] & -> & Hin).
  apply elem_of_map_to_list in Hin. by eexists.
Qed.

End LoadExtracted.

Section ReconstructionMore.

Context {E : Externals} {ES : ExternalsSpec E}.

Lemma reconstruct_length (self : trainer handler) (hp : HParams)
    (id_name : string) (label : ndarray) (lf0 : list float) :
  reconstruct self hp id_name label = Ok lf0 -> length lf0 = len label.
Proof.
  intros (raw & _ & ->)%reconstruct_Ok. simpl.
  unfold silence. rewrite length_map, add_phrase_length.
  - by rewrite atoms_to_lf0_length, expand_label_len.
  - rewrite length_take. lia.
Qed.

End ReconstructionMore.

Section Silence.

Context {E : Externals}.

Lemma silence_frame (l : list float) (i : nat) (y : float) :
  silence l !! i = Some y ->
  y = lf0_zero \/ PrimFloat.leb y log_f0_silence_threshold = false.
Proof.
  unfold silence. rewrite list_lookup_fmap.
  destruct (l !! i) as [x|]; simpl; [|discriminate]. intros [= <-].
  destruct (PrimFloat.leb x log_f0_silence_threshold) eqn:Hx; [by left | by right].
Qed.

Lemma get_recon_silenced (self : trainer handler)
    (synth_output : gmap string ndarray) (hp : HParams)
    (rd : gmap string (list float)) (id_name : string) (lf0 : list float) :
  get_recon_from_synth_output self synth_output hp = Ok rd ->
  rd !! id_name = Some lf0 ->
  exists summed, lf0 = silence summed.
Proof.
  intros Hrd Hlf0.
  pose proof (get_recon_Ok _ _ _ _ Hrd) as [Hin Hdom].
  destruct (Hdom id_name) as [label Hl]; [by eexists|].
  destruct (Hin _ _ Hl) as (lf0' & Hrec & Hlf0').
  rewrite Hlf0 in Hlf0'. injection Hlf0' as <-.
  apply reconstruct_Ok in Hrec as (raw & _ & Heq). simpl in Heq. eauto.
Qed.

End Silence.

Section KeyLoops.

Context {W : Type} (f : string -> result W).

Lemma for_each_insert_by_key (l : list string) :
  forall acc rd : gmap string W,
    for_each (fun k d => let? w := f k in Ok (<[k := w]> d)) l acc = Ok rd ->
    (forall k, k ∈ l -> exists w, f k = Ok w /\ rd !! k = Some w) /\
    (forall k, k ∉ l -> rd !! k = acc !! k).
Proof.
  induction l as [|k0 l IH]; intros acc rd Hrun; cbn [for_each] in Hrun.
  - injection Hrun as <-. split; [|done]. intros k Hk. by apply elem_of_nil in Hk.
  - inv_bind Hrun as acc' Hbody. inv_bind Hbody as w Hw. injection Hbody as <-.
    destruct (IH _ _ Hrun) as [Hin Hout]. split.
    + intros k Hk. destruct (decide (k ∈ l)) as [Hl|Hl]; [by apply Hin|].
      apply elem_of_cons in Hk as [->|?]; [|done].
      exists w. split; [done|]. rewrite Hout by done. apply lookup_insert_eq.
    + intros k Hk. apply not_elem_of_cons in Hk as [Hne Hk].
      rewrite Hout by done. by rewrite lookup_insert_ne.
Qed.

End KeyLoops.

Section Broadcast.

Lemma broadcast_length (n : nat) (xs ys : list float) :
  broadcast n xs = Ok ys -> length ys = n.
Proof.
  unfold broadcast. destruct (Nat.eqb_spec (length xs) n) as [<-|_].
  - by intros [= <-].
  - destruct xs as [|x [|? ?]]; try discriminate.
    intros [= <-]. apply length_replicate.
Qed.

Lemma set_column_broadcast (m : matrix) (v : slice) (c : nat)
    (xs ys : list float) :
  broadcast (sl_len v) xs = Ok ys -> set_column m v c xs = set_column m v c ys.
Proof.
  intros Hb. unfold set_column. rewrite Hb.
  by rewrite (broadcast_same _ ys) by by eapply broadcast_length.
Qed.

End Broadcast.

Section PhraseOverride.

Context {E : Externals}.

Lemma overridden_trans (vals : list float) (m m1 m2 : matrix) :
  overridden vals m m1 -> overridden vals m1 m2 -> overridden vals m m2.
Proof.
  intros (Hc1 & Hr1 & _ & He1) (Hc2 & Hr2 & Hwf2 & He2).
  split; [congruence|]. split; [congruence|]. split; [done|].
  intros c i Hi. rewrite He2 by lia. rewrite Hc1.
  case_decide; [done|]. rewrite He1 by done. by rewrite decide_False.
Qed.

Lemma override_lf0_Ok (self : trainer handler) (id_name : string)
    (full_output full_output' : gmap string matrix) :
  map_Forall (fun _ m => wf_matrix m) full_output ->
  override_lf0 self id_name full_output = Ok full_output' ->
  exists m m' raw vals,
    full_output !! id_name = Some m /\
    np_fromfile (phrase_path self id_name) = Ok raw /\
    3 <= ncols m /\
    broadcast (nrows m) (take (nrows m) raw) = Ok vals /\
    overridden vals m m' /\
    full_output' = <[id_name := m']> full_output.
Proof.
  intros Hwf. unfold override_lf0.
  destruct (full_output !! id_name) as [m|] eqn:Hm; [|discriminate].
  intros H. inv_bind H as raw Hraw. inv_bind H as m' Hset. injection H as <-.
  unfold set_column_minus3 in Hset.
  destruct (Nat.leb_spec 3 (ncols m)) as [Hc|_]; [|discriminate].
  rewrite take_take, Nat.min_id in Hset.
  pose proof (set_column_Ok _ _ _ _ _ Hset) as (vals & Hlt & Hb & _).
  simpl in Hb.
  rewrite (set_column_broadcast _ _ _ _ vals) in Hset by done.
  pose proof (broadcast_length _ _ _ Hb) as Hlen.
  pose proof (Hwf _ _ Hm) as Hwfm. simpl in Hwfm.
  pose proof (set_column_shape _ _ _ _ _ Hset) as (Hc' & Hr' & Hwf').
  exists m, m', raw, vals. repeat (split; [done|]). split; [|done].
  split; [done|]. split; [done|]. split; [by apply Hwf'|].
  intros c i Hi.
  rewrite (set_column_entry m (whole (nrows m)) (ncols m - 3) vals m')
    by done. simpl. rewrite Nat.sub_0_r.
  repeat case_decide; try done; lia.
Qed.

Lemma override_lf0_loop (self : trainer handler) (l : list string) :
  forall full_output full_output' : gmap string matrix,
    map_Forall (fun _ m => wf_matrix m) full_output ->
    for_each (override_lf0 self) l full_output = Ok full_output' ->
    (forall id_name, id_name ∈ l ->
       exists m m' raw vals,
         full_output !! id_name = Some m /\
         full_output' !! id_name = Some m' /\
         np_fromfile (phrase_path self id_name) = Ok raw /\
         3 <= ncols m /\
         broadcast (nrows m) (take (nrows m) raw) = Ok vals /\
         overridden vals m m') /\
    (forall id_name, id_name ∉ l -> full_output' !! id_name = full_output !! id_name).
Proof.
  induction l as [|id0 l IH]; intros fo fo' Hwf Hrun; cbn [for_each] in Hrun.
  - injection Hrun as <-. split; [|done]. intros ? Hin. by apply elem_of_nil in Hin.
  - inv_bind Hrun as fo1 Hbody.
    destruct (override_lf0_Ok _ _ _ _ Hwf Hbody)
      as (m & m1 & raw & vals & Hm & Hraw & Hc & Hb & Hov & ->).
    assert (Hwf1 : map_Forall (fun _ m => wf_matrix m) (<[id0 := m1]> fo)).
    { apply map_Forall_insert_2; [|done]. by destruct Hov as (_ & _ & ? & _). }
    destruct (IH _ _ Hwf1 Hrun) as [Hin Hout]. split.
    + intros id_name Hel. destruct (decide (id_name ∈ l)) as [Hl|Hl].
      * destruct (Hin _ Hl) as (n & n' & raw' & vals' & Hn & Hn' & Hraw' & Hc' & Hb' & Hov').
        destruct (decide (id_name = id0)) as [->|Hne].
        -- rewrite lookup_insert_eq in Hn. injection Hn as <-.
           rewrite Hraw in Hraw'. injection Hraw' as <-.
           destruct Hov as (Hcm & Hrm & Hov).
           rewrite Hrm in Hb'. rewrite Hb in Hb'. injection Hb' as <-.
           exists m, n', raw, vals. repeat (split; [done|]).
           eapply overridden_trans; [|done]. by split.
        -- rewrite lookup_insert_ne in Hn by done.
           exists n, n', raw', vals'. done.
      * apply elem_of_cons in Hel as [->|?]; [|done].
        exists m, m1, raw, vals. split; [done|]. split; [|done].
        rewrite Hout by done. apply lookup_insert_eq.
    + intros id_name Hnot. apply not_elem_of_cons in Hnot as [Hne Hnot].
      rewrite Hout by done. by rewrite lookup_insert_ne.
Qed.

Lemma foldl_insert_unit_lookup (l : list string) (acc : gmap string unit)
    (id_name : string) :
  is_Some (foldl (fun so k => <[k := tt]> so) acc l !! id_name)
  <-> id_name ∈ l \/ is_Some (acc !! id_name).
Proof.
  revert acc. induction l as [|k l IH]; intros acc; simpl.
  - split; [by right|]. intros [Hin|?]; [|done]. by apply elem_of_nil in Hin.
  - rewrite IH, elem_of_cons. rewrite lookup_insert_is_Some. 
    destruct (decide (k = id_name)) as [->|Hne]; [tauto|]. split.
    + intros [?|[?|[_ ?]]]; tauto.
    + intros [[?|?]|?]; [congruence|tauto|]. right. by right.
Qed.

End PhraseOverride.

Section Strip.

Context (chars : list Ascii.ascii).

Lemma lstrip_suffix (s : list Ascii.ascii) :
  exists pre, s = pre ++ lstrip chars s /\ Forall (fun c => char_in chars c = true) pre.
Proof.
  induction s as [|c s IH]; simpl.
  - by exists [].
  - destruct (char_in chars c) eqn:Hc.
    + destruct IH as (pre & Hs & Hpre). exists (c :: pre).
      split; [simpl; by f_equal | by constructor].
    + by exists [].
Qed.

Lemma lstrip_head (s : list Ascii.ascii) (c : Ascii.ascii) :
  head (lstrip chars s) = Some c -> char_in chars c = false.
Proof.
  induction s as [|c0 s IH]; simpl; [discriminate|].
  destruct (char_in chars c0) eqn:Hc0; [done|]. simpl. by intros [= <-].
Qed.

Lemma lstrip_padding (pre s : list Ascii.ascii) :
  Forall (fun c => char_in chars c = true) pre ->
  (forall c, head s = Some c -> char_in chars c = false) ->
  lstrip chars (pre ++ s) = s.
Proof.
  intros Hpre Hs. induction Hpre as [|c pre Hc _ IH]; simpl.
  - destruct s as [|c s]; [done|]. simpl. by rewrite (Hs c).
  - by rewrite Hc.
Qed.

Lemma lstrip_all (s : list Ascii.ascii) :
  Forall (fun c => char_in chars c = true) s -> lstrip chars s = [].
Proof. induction 1 as [|c s Hc _ IH]; simpl; [done|]. by rewrite Hc. Qed.

Lemma rstrip_prefix (s : list Ascii.ascii) :
  exists post, s = rstrip chars s ++ post /\
               Forall (fun c => char_in chars c = true) post.
Proof.
  unfold rstrip. destruct (lstrip_suffix (reverse s)) as (pre & Hs & Hpre).
  exists (reverse pre). split.
  - rewrite <- reverse_app, <- Hs. by rewrite reverse_involutive.
  - by apply Forall_reverse.
Qed.

Lemma rstrip_last (s : list Ascii.ascii) (c : Ascii.ascii) :
  last (rstrip chars s) = Some c -> char_in chars c = false.
Proof. unfold rstrip. rewrite last_reverse. apply lstrip_head. Qed.

Lemma rstrip_padding (s post : list Ascii.ascii) :
  Forall (fun c => char_in chars c = true) post ->
  (forall c, last s = Some c -> char_in chars c = false) ->
  rstrip chars (s ++ post) = s.
Proof.
  intros Hpost Hs. unfold rstrip. rewrite reverse_app.
  rewrite lstrip_padding.
  - apply reverse_involutive.
  - by apply Forall_reverse.
  - intros c Hc. rewrite head_reverse in Hc. by apply Hs.
Qed.

Lemma rstrip_head (s : list Ascii.ascii) (c : Ascii.ascii) :
  head (rstrip chars s) = Some c -> head s = Some c.
Proof.
  destruct (rstrip_prefix s) as (post & Hs & _). intros Hc.
  rewrite Hs. destruct (rstrip chars s); [discriminate|done].
Qed.

End Strip.

Lemma list_ascii_of_string_app (a b : string) :
  String.list_ascii_of_string (a +:+ b) = String.list_ascii_of_string a ++ String.list_ascii_of_string b.
Proof. induction a as [|c a IH]; simpl; [done|]. by rewrite IH. Qed.

Lemma Ok_inj {A : Type} (a b : A) : Ok a = Ok b -> a = b.
Proof. by intros [= ->]. Qed.

(** ** Further properties of the code *)

(** X1.  When [load_extracted_audio_features] returns, its result holds, for every
    key of [synth_output], the sample [WorldFeatLabelGen.load_sample] loads for
    that key from [hparams.world_dir] (or, when that is absent or [None], from
    the directory of the extracted features), and it holds no other key. *)
Theorem load_extracted_audio_features_entries {E : Externals} {V : Type}
    (self : trainer handler) (synth_output : gmap string V) (hparams : HParams)
    (org_output : gmap string matrix) :
  load_extracted_audio_features self synth_output hparams = Ok org_output ->
  (forall id_name, is_Some (synth_output !! id_name) ->
     exists sample,
       WorldFeatLabelGen_load_sample id_name (extracted_world_dir self hparams)
                                     (num_coded_sps hparams) = Ok sample /\
       org_output !! id_name = Some sample) /\
  (forall id_name, synth_output !! id_name = None -> org_output !! id_name = None).
Proof. apply load_extracted_audio_features_Ok. Qed.

Lemma load_extracted_audio_features_entries_witness :
  load_extracted_audio_features (E := Demo.externals) Demo.self Demo.synth_output
                                Demo.hparams = Ok DemoMore.loaded /\
  (forall id_name, is_Some (Demo.synth_output !! id_name) ->
     exists sample,
       WorldFeatLabelGen_load_sample (Externals := Demo.externals) id_name "world" 1
       = Ok sample /\
       DemoMore.loaded !! id_name = Some sample) /\
  (forall id_name, Demo.synth_output !! id_name = None ->
     DemoMore.loaded !! id_name = None).
Proof.
  assert (H : load_extracted_audio_features (E := Demo.externals) Demo.self
                Demo.synth_output Demo.hparams = Ok DemoMore.loaded)
    by (vm_compute; reflexivity).
  split; [exact H|].
  exact (@load_extracted_audio_features_entries Demo.externals _ Demo.self
           Demo.synth_output Demo.hparams DemoMore.loaded H).
Defined.

(** X2.  [load_extracted_audio_features] returns exactly when the sample of every
    key of [synth_output] can be loaded; one sample that cannot be loaded makes
    the whole call raise. *)
Theorem load_extracted_audio_features_returns_iff {E : Externals} {V : Type}
    (self : trainer handler) (synth_output : gmap string V) (hparams : HParams) :
  (exists org_output,
     load_extracted_audio_features self synth_output hparams = Ok org_output)
  <->
  (forall id_name, is_Some (synth_output !! id_name) ->
     exists sample,
       WorldFeatLabelGen_load_sample id_name (extracted_world_dir self hparams)
                                     (num_coded_sps hparams) = Ok sample).
Proof.
  split.
  - intros [org Horg] id_name Hin.
    apply load_extracted_audio_features_Ok in Horg as [Hall _].
    destruct (Hall _ Hin) as (m & Hm & _). eauto.
  - apply load_extracted_audio_features_total.
Qed.

(** X3.  [get_recon_from_synth_output] returns exactly when the phrase file of
    every utterance of [synth_output] can be read, and the dictionary it
    returns has exactly the keys of [synth_output]. *)
Theorem get_recon_returns_iff {E : Externals}
    (self : trainer handler) (synth_output : gmap string ndarray) (hparams : HParams) :
  ((exists recon_dict,
      get_recon_from_synth_output self synth_output hparams = Ok recon_dict)
   <->
   (forall id_name, is_Some (synth_output !! id_name) ->
      exists raw, np_fromfile (phrase_path self id_name) = Ok raw)) /\
  (forall recon_dict,
     get_recon_from_synth_output self synth_output hparams = Ok recon_dict ->
     forall id_name,
       is_Some (recon_dict !! id_name) <-> is_Some (synth_output !! id_name)).
Proof.
  split; [split|].
  - intros [rd Hrd] id_name [label Hl].
    apply get_recon_Ok in Hrd as [Hin _].
    destruct (Hin _ _ Hl) as (lf0 & Hrec & _).
    apply reconstruct_Ok in Hrec as (raw & Hraw & _). eauto.
  - intros Hfiles. apply get_recon_total. intros id_name label Hl.
    destruct (Hfiles id_name) as [raw Hraw]; [by eexists|].
    by eapply reconstruct_total.
  - intros rd Hrd id_name. apply get_recon_Ok in Hrd as [Hin Hdom].
    split; [apply Hdom|]. intros [label Hl].
    destruct (Hin _ _ Hl) as (lf0 & _ & Hlf0). by eexists.
Qed.

(** X4.  No frame of an lf0 that [get_recon_from_synth_output] returns is at or
    below [log(f0_silence_threshold)], unless it is [lf0_zero]. *)
Theorem get_recon_no_silent_frame {E : Externals}
    (self : trainer handler) (synth_output : gmap string ndarray) (hparams : HParams)
    (recon_dict : gmap string (list float)) (id_name : string) (lf0 : list float) :
  get_recon_from_synth_output self synth_output hparams = Ok recon_dict ->
  recon_dict !! id_name = Some lf0 ->
  forall (i : nat) (y : float),
    lf0 !! i = Some y ->
    y = lf0_zero \/ PrimFloat.leb y log_f0_silence_threshold = false.
Proof.
  intros Hrd Hlf0 i y Hy.
  destruct (get_recon_silenced _ _ _ _ _ _ Hrd Hlf0) as [summed ->].
  by eapply silence_frame.
Qed.

Lemma get_recon_no_silent_frame_witness :
  get_recon_from_synth_output (E := Demo.externals) Demo.self Demo.synth_output
                              Demo.hparams = Ok Demo.recon_dict /\
  Demo.recon_dict !! "utt1" = Some [4.5; 4; 0]%float /\
  forall (i : nat) (y : float),
    [4.5; 4; 0]%float !! i = Some y ->
    y = 0%float \/ PrimFloat.leb y 3.4011973816621555%float = false.
Proof.
  assert (Hrd : get_recon_from_synth_output (E := Demo.externals) Demo.self
                  Demo.synth_output Demo.hparams = Ok Demo.recon_dict)
    by (vm_compute; reflexivity).
  assert (Hlf0 : Demo.recon_dict !! "utt1" = Some [4.5; 4; 0]%float)
    by (vm_compute; reflexivity).
  repeat (split; [assumption|]).
  exact (@get_recon_no_silent_frame Demo.externals Demo.self Demo.synth_output
           Demo.hparams Demo.recon_dict "utt1" _ Hrd Hlf0).
Defined.

(** X5.  With features extracted from the audio, [run_atom_synth] keeps the shape
    of every loaded feature matrix and changes nothing outside the columns
    [num_coded_sps] and [num_coded_sps + 1] of the frames the lf0 is written
    to: the spectral and aperiodicity values, and the lf0 and vuv of the
    frames before and after the trimmed range, are those loaded. *)
Theorem run_atom_synth_keeps_other_cells {E : Externals} {ES : ExternalsSpec E}
    (file_id_list : list string) (synth_output : gmap string ndarray)
    (st st' : state handler) (full_output : full_output_t) :
  synth_acoustic_model_path (st_hparams st) = None ->
  run_atom_synth file_id_list synth_output st = Ok (full_output, st') ->
  exists loaded recon_dict arrays,
    load_extracted_audio_features (st_self st) synth_output (st_hparams st)
    = Ok loaded /\
    get_recon_from_synth_output (st_self st) synth_output (st_hparams st)
    = Ok recon_dict /\
    full_output = Some arrays /\
    forall id_name sample,
      loaded !! id_name = Some sample ->
      exists lf0 sample',
        recon_dict !! id_name = Some lf0 /\
        arrays !! id_name = Some sample' /\
        nrows sample' = nrows sample /\
        ncols sample' = ncols sample /\
        let start := Z.to_nat (int_half (Z.of_nat (nrows sample)
                                         - Z.of_nat (length lf0))) in
        forall c i : nat,
          (c <> num_coded_sps (st_hparams st) /\
           c <> num_coded_sps (st_hparams st) + 1) \/
          i < start \/ start + length lf0 <= i ->
          entry sample' c i = entry sample c i.
Proof.
  intros Hpath Hrun.
  destruct (run_atom_synth_extracted _ _ _ _ _ Hpath Hrun)
    as (-> & loaded & rd & arrays & Hload & Hrd & -> & Hin & Hout).
  exists loaded, rd, arrays. repeat (split; [done|]).
  intros id_name m Hm.
  pose proof (load_extracted_audio_features_Ok _ _ _ _ Hload) as [_ Hnone].
  pose proof (get_recon_Ok _ _ _ _ Hrd) as [Hrec _].
  destruct (synth_output !! id_name) as [label|] eqn:Hl;
    [|rewrite Hnone in Hm by done; discriminate].
  destruct (Hrec _ _ Hl) as (lf0 & _ & Hlf0).
  destruct (Hin _ _ Hlf0) as (m0 & m' & Hm0 & Hwf & Hst & Hm').
  rewrite Hm in Hm0. injection Hm0 as <-.
  exists lf0, m'. split; [done|]. split; [done|].
  pose proof (stitched_shape _ _ _ _ Hst) as (Hc & Hr & _ & _).
  split; [done|]. split; [done|].
  intros start c i Hcell.
  rewrite (stitched_entry _ _ _ _ c i Hwf Hst). fold start.
  repeat case_decide; try done; lia.
Qed.

Lemma run_atom_synth_keeps_other_cells_witness :
  synth_acoustic_model_path Demo.hparams = None /\
  run_atom_synth (E := Demo.externals) ["utt1"; "utt2"] Demo.synth_output Demo.st0
  = Ok (Some Demo.arrays, Demo.st0) /\
  exists sample',
    Demo.arrays !! "utt1" = Some sample' /\
    nrows sample' = 5 /\
    ncols sample' = 4 /\
    forall c i : nat,
      (c <> 1 /\ c <> 2) \/ i < 1 \/ 4 <= i ->
      entry sample' c i = entry Demo.utt1_features c i.
Proof.
  assert (Hpath : synth_acoustic_model_path (st_hparams Demo.st0) = None)
    by reflexivity.
  assert (Hrun : run_atom_synth (E := Demo.externals) ["utt1"; "utt2"]
                   Demo.synth_output Demo.st0 = Ok (Some Demo.arrays, Demo.st0))
    by (vm_compute; reflexivity).
  split; [exact Hpath|]. split; [exact Hrun|].
  destruct (@run_atom_synth_keeps_other_cells Demo.externals demo_externals_spec
              ["utt1"; "utt2"] Demo.synth_output Demo.st0 Demo.st0
              (Some Demo.arrays) Hpath Hrun)
    as (loaded & rd & arrays & Hload & Hrd & Heq & Hcells).
  apply (inj Some) in Heq. subst arrays.
  assert (Hload' : load_extracted_audio_features (E := Demo.externals) Demo.self
                     Demo.synth_output Demo.hparams = Ok DemoMore.loaded)
    by (vm_compute; reflexivity).
  assert (Hrd' : get_recon_from_synth_output (E := Demo.externals) Demo.self
                   Demo.synth_output Demo.hparams = Ok Demo.recon_dict)
    by (vm_compute; reflexivity).
  assert (Hloaded : loaded = DemoMore.loaded).
  { apply Ok_inj. rewrite <- Hload. exact Hload'. }
  assert (Hrecon : rd = Demo.recon_dict).
  { apply Ok_inj. rewrite <- Hrd. exact Hrd'. }
  subst loaded rd.
  assert (Hl : DemoMore.loaded !! "utt1" = Some Demo.utt1_features)
    by (vm_compute; reflexivity).
  destruct (Hcells _ _ Hl) as (lf0 & sample' & Hlf0 & Hs & Hr & Hc & Hent).
  assert (Hlf0' : Demo.recon_dict !! "utt1" = Some [4.5; 4; 0]%float)
    by (vm_compute; reflexivity).
  assert (Hlf0eq : lf0 = [4.5; 4; 0]%float).
  { apply (inj Some). rewrite <- Hlf0. exact Hlf0'. }
  subst lf0. exists sample'. split; [exact Hs|]. split; [exact Hr|].
  split; [exact Hc|]. exact Hent.
Defined.

(** X6.  With features extracted from the audio, [run_atom_synth] leaves
    [hparams], the trainer and the record of framework calls as they were, and
    the dictionary it returns has exactly the keys of [synth_output]. *)
Theorem run_atom_synth_extracted_keys {E : Externals} {ES : ExternalsSpec E}
    (file_id_list : list string) (synth_output : gmap string ndarray)
    (st st' : state handler) (full_output : full_output_t) :
  synth_acoustic_model_path (st_hparams st) = None ->
  run_atom_synth file_id_list synth_output st = Ok (full_output, st') ->
  st' = st /\
  exists arrays,
    full_output = Some arrays /\
    forall id_name,
      is_Some (arrays !! id_name) <-> is_Some (synth_output !! id_name).
Proof.
  intros Hpath Hrun.
  destruct (run_atom_synth_extracted _ _ _ _ _ Hpath Hrun)
    as (-> & loaded & rd & arrays & Hload & Hrd & -> & Hin & Hout).
  split; [done|]. exists arrays. split; [done|]. intros id_name.
  pose proof (load_extracted_audio_features_Ok _ _ _ _ Hload) as [Hsome Hnone].
  pose proof (get_recon_Ok _ _ _ _ Hrd) as [Hrec Hdom].
  destruct (rd !! id_name) as [lf0|] eqn:Hlf0.
  - destruct (Hin _ _ Hlf0) as (m & m' & _ & _ & _ & Hm').
    split; [|by eexists]. intros _. apply Hdom. by eexists.
  - rewrite Hout by done. split.
    + intros Hl. destruct (synth_output !! id_name) eqn:Hso; [by eexists|].
      rewrite Hnone in Hl by done. by destruct Hl.
    + intros Hso. destruct (Hsome _ Hso) as (m & _ & ->). by eexists.
Qed.

Lemma run_atom_synth_extracted_keys_witness :
  synth_acoustic_model_path Demo.hparams = None /\
  run_atom_synth (E := Demo.externals) ["utt1"; "utt2"] Demo.synth_output Demo.st0
  = Ok (Some Demo.arrays, Demo.st0) /\
  Demo.st0 = Demo.st0 /\
  exists arrays,
    Some Demo.arrays = Some arrays /\
    forall id_name,
      is_Some (arrays !! id_name) <-> is_Some (Demo.synth_output !! id_name).
Proof.
  assert (Hpath : synth_acoustic_model_path (st_hparams Demo.st0) = None)
    by reflexivity.
  assert (Hrun : run_atom_synth (E := Demo.externals) ["utt1"; "utt2"]
                   Demo.synth_output Demo.st0 = Ok (Some Demo.arrays, Demo.st0))
    by (vm_compute; reflexivity).
  split; [exact Hpath|]. split; [exact Hrun|].
  exact (@run_atom_synth_extracted_keys Demo.externals demo_externals_spec
           _ _ _ _ _ Hpath Hrun).
Defined.

(** X7.  With features extracted from the audio, [run_atom_synth] returns a
    dictionary when, for every utterance, the phrase file can be read and the
    features can be loaded, have more than [num_coded_sps + 1] columns and at
    least as many frames as the label. *)
Theorem run_atom_synth_returns {E : Externals} {ES : ExternalsSpec E}
    (file_id_list : list string) (synth_output : gmap string ndarray)
    (st : state handler) :
  synth_acoustic_model_path (st_hparams st) = None ->
  (forall id_name label,
     synth_output !! id_name = Some label ->
     (exists raw, np_fromfile (phrase_path (st_self st) id_name) = Ok raw) /\
     (exists sample,
        WorldFeatLabelGen_load_sample id_name
          (extracted_world_dir (st_self st) (st_hparams st))
          (num_coded_sps (st_hparams st)) = Ok sample /\
        num_coded_sps (st_hparams st) + 1 < ncols sample /\
        len label <= nrows sample)) ->
  exists arrays,
    run_atom_synth file_id_list synth_output st = Ok (Some arrays, st).
Proof.
  intros Hpath Hall. unfold run_atom_synth. rewrite Hpath.
  destruct (load_extracted_audio_features_total (st_self st) synth_output
              (st_hparams st)) as [loaded Hload].
  { intros id_name [label Hl]. destruct (Hall _ _ Hl) as (_ & m & Hm & _). eauto. }
  rewrite Hload. cbn [rbind].
  destruct (get_recon_total (st_self st) synth_output (st_hparams st)) as [rd Hrd].
  { intros id_name label Hl. destruct (Hall _ _ Hl) as ([raw Hraw] & _).
    by eapply reconstruct_total. }
  rewrite Hrd. cbn [rbind].
  destruct (stitch_loop_total (num_coded_sps (st_hparams st)) (map_to_list rd)
              (NoDup_fst_map_to_list rd) loaded) as [arrays Harrays].
  { intros id_name lf0 Hin. apply elem_of_map_to_list in Hin.
    pose proof (get_recon_Ok _ _ _ _ Hrd) as [Hrec Hdom].
    destruct (Hdom id_name) as [label Hl]; [by eexists|].
    destruct (Hrec _ _ Hl) as (lf0' & Hlf0' & Heq).
    rewrite Hin in Heq. injection Heq as <-.
    apply reconstruct_length in Hlf0'.
    destruct (Hall _ _ Hl) as (_ & m & Hm & Hc & Hr).
    pose proof (load_extracted_audio_features_Ok _ _ _ _ Hload) as [Hsome _].
    destruct (Hsome id_name) as (m' & Hm' & Hlook); [by eexists|].
    rewrite Hm in Hm'. injection Hm' as <-.
    exists m. split; [done|]. split; [done|]. lia. }
  rewrite Harrays. cbn [rbind]. eauto.
Qed.

Lemma run_atom_synth_returns_witness :
  exists arrays,
    run_atom_synth (E := Demo.externals) ["utt1"; "utt2"] Demo.synth_output Demo.st0
    = Ok (Some arrays, Demo.st0).
Proof.
  apply (@run_atom_synth_returns Demo.externals demo_externals_spec
           ["utt1"; "utt2"] Demo.synth_output Demo.st0); [reflexivity|].
  intros id_name label H. unfold Demo.synth_output in H.
  apply lookup_insert_Some in H as [[<- <-]|[_ H]].
  { split; [vm_compute; eauto|]. exists Demo.utt2_features.
    split; [reflexivity|]. vm_compute. lia. }
  apply lookup_insert_Some in H as [[<- <-]|[_ H]].
  { split; [vm_compute; eauto|]. exists Demo.utt1_features.
    split; [reflexivity|]. vm_compute. lia. }
  by rewrite lookup_empty in H.
Defined.

(** X8.  When [lf0_zero] is at most [log(f0_silence_threshold)], the frames
    [run_atom_synth] marks unvoiced are exactly those whose written lf0 is
    [lf0_zero]. *)
Theorem run_atom_synth_unvoiced_iff_lf0_zero
    {E : Externals} {ES : ExternalsSpec E}
    (file_id_list : list string) (synth_output : gmap string ndarray)
    (st st' : state handler) (full_output : full_output_t)
    (recon_dict : gmap string (list float)) (id_name : string) (lf0 : list float) :
  PrimFloat.leb lf0_zero log_f0_silence_threshold = true ->
  run_atom_synth file_id_list synth_output st = Ok (full_output, st') ->
  get_recon_from_synth_output (st_self st') synth_output (st_hparams st')
  = Ok recon_dict ->
  recon_dict !! id_name = Some lf0 ->
  exists arrays sample full_sample,
    full_output = Some arrays /\
    arrays !! id_name = Some sample /\
    run_atom_synth_trim (nrows sample) (length lf0) = Ok full_sample /\
    forall i : nat,
      i < length lf0 ->
      exists y u,
        entry sample (num_coded_sps (st_hparams st')) (sl_start full_sample + i)
        = Some y /\
        entry sample (num_coded_sps (st_hparams st') + 1) (sl_start full_sample + i)
        = Some u /\
        (u = 0%float <-> y = lf0_zero).
Proof.
  intros Hzero Hrun Hrd Hlf0.
  destruct (run_atom_synth_Ok _ _ _ _ _ _ _ _ Hrun Hrd Hlf0)
    as (arrays & m & m' & -> & Hwf & Hst & Hm').
  pose proof Hst as (v & m1 & Hv & _ & _).
  pose proof (stitched_shape _ _ _ _ Hst) as (_ & Hr & _ & _).
  exists arrays, m', v. split; [done|]. split; [done|].
  rewrite Hr. split; [done|].
  intros i Hi.
  pose proof (run_atom_synth_trim_Ok _ _ _ Hv) as (Hle & Hveq & _).
  assert (Hstart : sl_start v
                   = Z.to_nat (int_half (Z.of_nat (nrows m) - Z.of_nat (length lf0))))
    by (subst v; done).
  destruct (lookup_lt_is_Some_2 lf0 i Hi) as [y Hy].
  exists y, (if PrimFloat.leb y log_f0_silence_threshold then 0%float else 1%float).
  rewrite !(stitched_entry _ _ _ _ _ _ Hwf Hst). rewrite <- Hstart.
  replace (sl_start v + i - sl_start v) with i by lia.
  split; [|split].
  - rewrite decide_False by lia. rewrite decide_True by lia. done.
  - rewrite decide_True by lia. unfold vuv_of.
    by rewrite list_lookup_fmap, Hy.
  - destruct (get_recon_silenced _ _ _ _ _ _ Hrd Hlf0) as [summed ->].
    destruct (silence_frame _ _ _ Hy) as [->|Hgt].
    + rewrite Hzero. done.
    + rewrite Hgt. split.
      * intros H. symmetry in H. by apply float_zero_ne_one in H.
      * intros ->. congruence.
Qed.

Lemma run_atom_synth_unvoiced_iff_lf0_zero_witness :
  PrimFloat.leb 0%float 3.4011973816621555%float = true /\
  run_atom_synth (E := Demo.externals) ["utt1"; "utt2"] Demo.synth_output Demo.st0
  = Ok (Some Demo.arrays, Demo.st0) /\
  get_recon_from_synth_output (E := Demo.externals) Demo.self Demo.synth_output
                              Demo.hparams = Ok Demo.recon_dict /\
  Demo.recon_dict !! "utt1" = Some [4.5; 4; 0]%float /\
  exists arrays sample full_sample,
    Some Demo.arrays = Some arrays /\
    arrays !! "utt1" = Some sample /\
    run_atom_synth_trim (nrows sample) 3 = Ok full_sample /\
    forall i : nat,
      i < 3 ->
      exists y u,
        entry sample 1 (sl_start full_sample + i) = Some y /\
        entry sample 2 (sl_start full_sample + i) = Some u /\
        (u = 0%float <-> y = 0%float).
Proof.
  assert (Hzero : PrimFloat.leb (lf0_zero (Externals := Demo.externals))
                    (log_f0_silence_threshold (Externals := Demo.externals)) = true)
    by reflexivity.
  assert (Hrun : run_atom_synth (E := Demo.externals) ["utt1"; "utt2"]
                   Demo.synth_output Demo.st0 = Ok (Some Demo.arrays, Demo.st0))
    by (vm_compute; reflexivity).
  assert (Hrd : get_recon_from_synth_output (E := Demo.externals) Demo.self
                  Demo.synth_output Demo.hparams = Ok Demo.recon_dict)
    by (vm_compute; reflexivity).
  assert (Hlf0 : Demo.recon_dict !! "utt1" = Some [4.5; 4; 0]%float)
    by (vm_compute; reflexivity).
  repeat (split; [assumption|]).
  exact (@run_atom_synth_unvoiced_iff_lf0_zero Demo.externals demo_externals_spec
           ["utt1"; "utt2"] Demo.synth_output Demo.st0 Demo.st0 _ _ _ _
           Hzero Hrun Hrd Hlf0).
Defined.

(** X9.  When [generate_audio_features] returns, its value is [None], [OutputGen]
    and [model_handler] are the objects they were before the call, and
    [f_synthesize] is bound to [synthesize]; [ModelTrainer.synth] was called
    once, with the acoustic model handler, [AudioGen] as output generator and
    [f_synthesize] bound to [save_audio_features]. *)
Theorem generate_audio_features_restores {E : Externals}
    (id_list : list string) (st st' : state handler) (full_output : full_output_t) :
  generate_audio_features id_list st = Ok (full_output, st') ->
  full_output = None /\
  OutputGen (st_self st') = OutputGen (st_self st) /\
  AudioGen (st_self st') = AudioGen (st_self st) /\
  model_handler (st_self st') = model_handler (st_self st) /\
  f_synthesize (st_self st') = bound_synthesize /\
  exists path self_during,
    synth_acoustic_model_path (st_hparams st) = Some path /\
    OutputGen self_during = AudioGen (st_self st) /\
    model_handler self_during = AcousticModelTrainer (basename path) path /\
    f_synthesize self_during = bound_save_audio_features /\
    ModelTrainer_synth self_during (st_hparams st) id_list = Ok (st_hparams st') /\
    st_calls st'
    = st_calls st ++ [Call_ModelTrainer_synth self_during (st_hparams st) id_list].
Proof.
  unfold generate_audio_features.
  destruct (synth_acoustic_model_path (st_hparams st)) as [path|]; [|discriminate].
  intros H. inv_bind H as hp' Hsynth. injection H as <- <-. simpl.
  repeat (split; [done|]). eexists path, _. split; [done|].
  split; [|split; [|split; [|split; [exact Hsynth|reflexivity]]]]; done.
Qed.

Lemma generate_audio_features_restores_witness :
  exists st',
    generate_audio_features (E := Demo.externals) ["utt1"; "utt2"] Demo.st_acoustic
    = Ok (None, st') /\
    OutputGen (st_self st') = OutputGen Demo.self /\
    model_handler (st_self st') = model_handler Demo.self /\
    f_synthesize (st_self st') = bound_synthesize.
Proof.
  eexists. split; [vm_compute; reflexivity|].
  edestruct (@generate_audio_features_restores Demo.externals ["utt1"; "utt2"]
               Demo.st_acoustic) as (_ & Hgen & _ & Hhandler & Hsynth & _);
    [vm_compute; reflexivity|].
  split; [exact Hgen|]. split; [exact Hhandler|exact Hsynth].
Defined.

(** X10.  With an acoustic model path, [run_atom_synth] returns only for an empty
    [synth_output], and what it returns then is [None]. *)
Theorem run_atom_synth_acoustic_returns_none {E : Externals}
    (file_id_list : list string) (synth_output : gmap string ndarray)
    (st st' : state handler) (full_output : full_output_t) (path : string) :
  synth_acoustic_model_path (st_hparams st) = Some path ->
  run_atom_synth file_id_list synth_output st = Ok (full_output, st') ->
  synth_output = ∅ /\ full_output = None.
Proof.
  intros Hpath Hrun. unfold run_atom_synth in Hrun. rewrite Hpath in Hrun.
  inv_bind Hrun as [fo0 st1] Hfeat.
  inv_bind Hrun as rd Hrd. inv_bind Hrun as fo1 Hloop.
  injection Hrun as <- <-.
  apply generate_audio_features_Ok in Hfeat as [-> _].
  pose proof Hloop as Hnil. apply stitch_loop_None in Hnil.
  rewrite Hnil in Hloop. injection Hloop as <-. split; [|done].
  apply map_to_list_empty_iff in Hnil.
  apply map_empty. intros id_name.
  destruct (synth_output !! id_name) as [label|] eqn:Hl; [|done].
  apply get_recon_Ok in Hrd as [Hin _].
  destruct (Hin _ _ Hl) as (lf0 & _ & Hlf0).
  rewrite Hnil, lookup_empty in Hlf0. discriminate.
Qed.

Lemma run_atom_synth_acoustic_returns_none_witness :
  exists st',
    run_atom_synth (E := Demo.externals) [] ∅ Demo.st_acoustic = Ok (None, st') /\
    (∅ : gmap string ndarray) = ∅ /\ (None : full_output_t) = None.
Proof.
  eexists. split; [vm_compute; reflexivity|].
  eapply (@run_atom_synth_acoustic_returns_none Demo.externals [] ∅
            Demo.st_acoustic _ None "nn/acoustic.nn");
    vm_compute; reflexivity.
Defined.

(** X11.  When [synth_ref_wcad] returns, it has loaded the atom labels of every id
    of the list and of no other, run [run_atom_synth] on them, and called the
    vocoder once with the result and with [hparams] whose suffix ends in
    ["_wcad_ref"]; the suffix it restores is the one [hparams] had after
    [run_atom_synth]. *)
Theorem synth_ref_wcad_calls_vocoder {E : Externals}
    (file_id_list : list string) (st st' : state handler) :
  synth_ref_wcad file_id_list st = Ok st' ->
  exists synth_output full_output st1 hparams',
    (forall id_name, id_name ∈ file_id_list ->
       exists label,
         AtomLabelGen_load_sample id_name (dir_labels (OutputGen (st_self st)))
                                  (length (thetas (st_hparams st))) = Ok label /\
         synth_output !! id_name = Some label) /\
    (forall id_name, id_name ∉ file_id_list -> synth_output !! id_name = None) /\
    run_atom_synth file_id_list synth_output st = Ok (full_output, st1) /\
    let hparams_ref :=
      set_synth_file_suffix (synth_file_suffix (st_hparams st1) +:+ "_wcad_ref")
                            (st_hparams st1) in
    run_world_synth full_output hparams_ref = Ok hparams' /\
    st_calls st' = st_calls st1 ++ [Call_run_world_synth full_output hparams_ref] /\
    st_hparams st'
    = set_synth_file_suffix (synth_file_suffix (st_hparams st1)) hparams' /\
    st_self st' = st_self st1.
Proof.
  unfold synth_ref_wcad. intros Hrun.
  inv_bind Hrun as synth_output Hload.
  inv_bind Hrun as [full_output st1] Hsynth.
  inv_bind Hrun as st2 Hworld. injection Hrun as <-.
  unfold call_run_world_synth in Hworld. inv_bind Hworld as hparams' Hhp.
  injection Hworld as <-. simpl in *.
  apply (for_each_insert_by_key
           (fun id_name => AtomLabelGen_load_sample id_name
                             (dir_labels (OutputGen (st_self st)))
                             (length (thetas (st_hparams st))))) in Hload
    as [Hin Hout].
  exists synth_output, full_output, st1, hparams'.
  split; [done|]. split.
  - intros id_name Hnot. rewrite Hout by done. apply lookup_empty.
  - repeat (split; [done|]). done.
Qed.

Lemma synth_ref_wcad_calls_vocoder_witness :
  exists st' synth_output full_output st1 hparams',
    synth_ref_wcad (E := Demo.externals) ["utt1"; "utt2"] Demo.st0 = Ok st' /\
    run_atom_synth (E := Demo.externals) ["utt1"; "utt2"] synth_output Demo.st0
    = Ok (full_output, st1) /\
    st_calls st'
    = st_calls st1
      ++ [Call_run_world_synth full_output
            (set_synth_file_suffix
               (synth_file_suffix (st_hparams st1) +:+ "_wcad_ref")
               (st_hparams st1))] /\
    st_hparams st'
    = set_synth_file_suffix (synth_file_suffix (st_hparams st1)) hparams'.
Proof.
  eexists.
  edestruct (@synth_ref_wcad_calls_vocoder Demo.externals ["utt1"; "utt2"] Demo.st0)
    as (so & fo & st1 & hp' & _ & _ & Hrun & _ & Hcalls & Hhp & _);
    [vm_compute; reflexivity|].
  exists so, fo, st1, hp'. split; [reflexivity|]. split; [exact Hrun|].
  split; [exact Hcalls|exact Hhp].
Defined.

(** X12.  When [synth_phrase] returns, every id of the list has loaded features of
    at least three columns whose phrase file holds at least as many values as
    the features have frames (or exactly one value); the matrix passed to
    [ModelTrainer.synthesize] has the same shape, its column third from the
    end holds the phrase curve, its other columns hold the loaded values, and
    [hparams] carries the suffix ["_phrase"] during the call. *)
Theorem synth_phrase_overrides_lf0 {E : Externals} {ES : ExternalsSpec E}
    (file_id_list : list string) (st st' : state handler) :
  synth_phrase file_id_list st = Ok st' ->
  exists full_output hparams',
    (forall id_name, id_name ∈ file_id_list ->
       exists sample sample' raw vals,
         WorldFeatLabelGen_load_sample id_name
           (extracted_world_dir (st_self st) (st_hparams st))
           (num_coded_sps (st_hparams st)) = Ok sample /\
         full_output !! id_name = Some sample' /\
         np_fromfile (phrase_path (st_self st) id_name) = Ok raw /\
         3 <= ncols sample /\
         broadcast (nrows sample) (take (nrows sample) raw) = Ok vals /\
         ncols sample' = ncols sample /\
         nrows sample' = nrows sample /\
         forall c i : nat,
           i < nrows sample ->
           entry sample' c i
           = if decide (c = ncols sample - 3) then vals !! i else entry sample c i) /\
    (forall id_name, id_name ∉ file_id_list -> full_output !! id_name = None) /\
    let hparams_phrase :=
      set_synth_file_suffix (synth_file_suffix (st_hparams st) +:+ "_phrase")
                            (st_hparams st) in
    ModelTrainer_synthesize file_id_list full_output hparams_phrase = Ok hparams' /\
    st_calls st'
    = st_calls st
      ++ [Call_ModelTrainer_synthesize file_id_list full_output hparams_phrase] /\
    st_hparams st'
    = set_synth_file_suffix (synth_file_suffix (st_hparams st)) hparams'.
Proof.
  unfold synth_phrase. intros Hrun.
  inv_bind Hrun as loaded Hload. inv_bind Hrun as full_output Hover.
  inv_bind Hrun as st2 Hcall. injection Hrun as <-.
  unfold call_ModelTrainer_synthesize in Hcall. inv_bind Hcall as hparams' Hhp.
  injection Hcall as <-. simpl in *.
  pose proof (load_extracted_audio_features_wf _ _ _ _ Hload) as Hwf.
  pose proof (load_extracted_audio_features_Ok _ _ _ _ Hload) as [Hsome Hnone].
  destruct (override_lf0_loop _ _ _ _ Hwf Hover) as [Hin Hout].
  exists full_output, hparams'. split; [|split].
  - intros id_name Hel.
    destruct (Hin _ Hel) as (m & m' & raw & vals & Hm & Hm' & Hraw & Hc & Hb & Hov).
    destruct (Hsome id_name) as (m0 & Hm0 & Hlook).
    { apply foldl_insert_unit_lookup. by left. }
    rewrite Hm in Hlook. injection Hlook as <-.
    destruct Hov as (? & ? & _ & ?).
    exists m, m', raw, vals. repeat (split; [done|]). done.
  - intros id_name Hnot. rewrite Hout by done. apply Hnone.
    destruct (foldl _ _ _ !! id_name) as [[]|] eqn:Hl; [|done]. exfalso.
    assert (Hs : is_Some (foldl (fun so k => <[k := tt]> so)
                            (∅ : gmap string unit) file_id_list !! id_name))
      by by eexists.
    apply foldl_insert_unit_lookup in Hs as [?|[? Hempty]]; [done|].
    by rewrite lookup_empty in Hempty.
  - repeat (split; [done|]). done.
Qed.

Lemma synth_phrase_overrides_lf0_witness :
  exists st' full_output sample',
    synth_phrase (E := Demo.externals) ["utt2"; "utt2"] Demo.st0 = Ok st' /\
    st_calls st'
    = [Call_ModelTrainer_synthesize ["utt2"; "utt2"] full_output
         (set_synth_file_suffix "_e3_phrase" Demo.hparams)] /\
    full_output !! "utt2" = Some sample' /\
    forall c i : nat,
      i < 2 ->
      entry sample' c i
      = if decide (c = 1) then [4.5; 3]%float !! i else entry Demo.utt2_features c i.
Proof.
  eexists.
  edestruct (@synth_phrase_overrides_lf0 Demo.externals demo_externals_spec
               ["utt2"; "utt2"] Demo.st0)
    as (fo & hp' & Hin & _ & _ & Hcalls & _); [vm_compute; reflexivity|].
  destruct (Hin "utt2") as (m & m' & raw & vals & Hm & Hm' & Hraw & _ & Hb & _ & _ & He).
  { apply elem_of_cons. by left. }
  vm_compute in Hm. injection Hm as <-.
  vm_compute in Hraw. injection Hraw as <-.
  vm_compute in Hb. injection Hb as <-.
  exists fo, m'. split; [reflexivity|]. split; [exact Hcalls|].
  split; [exact Hm'|]. exact He.
Defined.

(** X13.  In [gen_figure_from_output], for an original lf0 at least as long as the
    predicted one, the trimmed original has [len(lf0)] frames when [len_diff]
    is odd and [len(lf0) - 1] frames (none for an empty lf0) when it is even;
    for a non-empty lf0 it starts [int(len_diff / 2) + 1] frames into the
    original. *)
Theorem gen_figure_from_output_trim_lengths (len_original_lf0 len_lf0 : nat) :
  len_lf0 <= len_original_lf0 ->
  let len_diff := (Z.of_nat len_original_lf0 - Z.of_nat len_lf0)%Z in
  exists trimmed,
    gen_figure_from_output_trim len_original_lf0 len_lf0 = Ok trimmed /\
    sl_len trimmed = (if Z.odd len_diff then len_lf0 else len_lf0 - 1) /\
    (1 <= len_lf0 -> Z.of_nat (sl_start trimmed) = (int_half len_diff + 1)%Z).
Proof.
  intros Hle len_diff. unfold gen_figure_from_output_trim. fold len_diff.
  assert (Hd : (0 <= len_diff)%Z) by (unfold len_diff; lia).
  pose proof (int_half_bounds len_diff Hd) as [Hlo Hhi].
  assert (Hq : (len_diff = 2 * int_half len_diff
                           + (if Z.odd len_diff then 1 else 0))%Z).
  { unfold int_half. rewrite Z.quot_div_nonneg by lia.
    rewrite <- Zmod_odd. apply Z.div_mod. lia. }
  unfold trim_end_sample, whole. simpl.
  destruct (Z.ltb_spec (int_half len_diff) 0) as [?|_]; [lia|]. simpl.
  destruct (Z.ltb_spec (int_half len_diff + 1) 0) as [?|_]; [lia|].
  eexists. split; [reflexivity|]. simpl.
  destruct (Z.odd len_diff); unfold len_diff in *; split; lia.
Qed.

Lemma gen_figure_from_output_trim_lengths_witness :
  8 <= 12 /\
  exists trimmed,
    gen_figure_from_output_trim 12 8 = Ok trimmed /\
    sl_len trimmed = 7 /\
    (1 <= 8 -> Z.of_nat (sl_start trimmed) = 3%Z).
Proof.
  split; [lia|]. apply (gen_figure_from_output_trim_lengths 12 8). lia.
Defined.

(** X14.  No id [_get_id_list] returns starts or ends with a blank, a tab, a line
    feed or a carriage return. *)
Theorem get_id_list_ids_are_stripped (lines : list string) (id_name : string) :
  id_name ∈ get_id_list lines ->
  forall c : Ascii.ascii,
    head (String.list_ascii_of_string id_name) = Some c
    \/ last (String.list_ascii_of_string id_name) = Some c ->
    c ∉ id_list_blanks.
Proof.
  unfold get_id_list. intros Hin c Hc.
  apply list_elem_of_fmap in Hin as (line & -> & _).
  unfold py_strip in Hc. rewrite String.list_ascii_of_string_of_list_ascii in Hc.
  assert (Hnot : char_in id_list_blanks c = false).
  { destruct Hc as [Hc|Hc].
    - apply rstrip_head in Hc. by apply lstrip_head in Hc.
    - by apply rstrip_last in Hc. }
  intros Hel. unfold char_in in Hnot.
  assert (existsb (Ascii.eqb c) id_list_blanks = true); [|congruence].
  apply existsb_exists. exists c. split; [by apply list_elem_of_In|].
  apply Ascii.eqb_refl.
Qed.

Lemma get_id_list_ids_are_stripped_witness :
  "utt1" ∈ get_id_list ["  utt1
"; "utt2"] /\
  forall c : Ascii.ascii,
    head (String.list_ascii_of_string "utt1") = Some c
    \/ last (String.list_ascii_of_string "utt1") = Some c ->
    c ∉ id_list_blanks.
Proof.
  assert (H : "utt1" ∈ get_id_list ["  utt1
"; "utt2"]) by (vm_compute; apply elem_of_cons; by left).
  split; [exact H|]. exact (get_id_list_ids_are_stripped _ _ H).
Defined.

(** X15.  [_get_id_list] gives back each id as it is, whatever blanks, tabs, line
    feeds and carriage returns surround it on its line, when the id itself
    neither starts nor ends with one; the order and the number of lines are
    kept. *)
Theorem get_id_list_strips_padding (entries : list (string * string * string)) :
  Forall (fun '(pre, id_name, post) =>
            Forall (fun c => c ∈ id_list_blanks) (String.list_ascii_of_string pre) /\
            Forall (fun c => c ∈ id_list_blanks) (String.list_ascii_of_string post) /\
            (forall c, head (String.list_ascii_of_string id_name) = Some c
                       \/ last (String.list_ascii_of_string id_name) = Some c ->
                       c ∉ id_list_blanks)) entries ->
  get_id_list (map (fun '(pre, id_name, post) => pre +:+ id_name +:+ post) entries)
  = map (fun '(pre, id_name, post) => id_name) entries.
Proof.
  assert (Hin : forall c, c ∈ id_list_blanks <-> char_in id_list_blanks c = true).
  { intros c. unfold char_in. rewrite existsb_exists. split.
    - intros Hc. exists c. split; [by apply list_elem_of_In|apply Ascii.eqb_refl].
    - intros (x & Hx & Heq). apply Ascii.eqb_eq in Heq as ->.
      by apply list_elem_of_In. }
  assert (Hout : forall c, c ∉ id_list_blanks -> char_in id_list_blanks c = false).
  { intros c Hc. destruct (char_in id_list_blanks c) eqn:H; [|done].
    by apply Hin in H. }
  assert (Hin' : forall c, c ∈ id_list_blanks -> char_in id_list_blanks c = true)
    by (intros c; apply Hin).
  clear Hin. rename Hin' into Hin.
  intros Hall. unfold get_id_list. rewrite map_map.
  induction Hall as [|[[pre id_name] post] entries (Hpre & Hpost & Hid) _ IH];
    simpl; [done|]. f_equal; [|exact IH].
  apply (Forall_impl _ _ _ Hpre) in Hin as Hpre'.
  apply (Forall_impl _ _ _ Hpost) in Hin as Hpost'.
  unfold py_strip. rewrite !list_ascii_of_string_app.
  rewrite <- (String.string_of_list_ascii_of_string id_name) at 2. f_equal.
  destruct (String.list_ascii_of_string id_name) as [|c0 s] eqn:Hs.
  - simpl. rewrite lstrip_all; [done|]. by apply Forall_app.
  - rewrite lstrip_padding.
    + rewrite rstrip_padding; [done|done|].
      intros c Hc. apply Hout, Hid. by right.
    + done.
    + intros c Hc. apply Hout, Hid. by left.
Qed.

Lemma get_id_list_strips_padding_witness :
  get_id_list ["  utt1
"; "utt2"] = ["utt1"; "utt2"].
Proof.
  apply (get_id_list_strips_padding [("  ", "utt1", "
"); ("", "utt2", "")]).
  repeat constructor;
    try (apply list_elem_of_In; simpl; tauto);
    intros c [[= <-]|[= <-]]; rewrite list_elem_of_In; simpl;
    intros [H|[H|[H|[H|[]]]]]; discriminate.
Defined.

(** X16.  With features extracted from the audio, when [synthesize] returns
    the vocoder has been called once, with [hparams] as they were and with the
    dictionary [run_atom_synth] built: for every loaded feature matrix at
    least as long as its reconstructed lf0, the matrix passed on holds the lf0
    in column [num_coded_sps] and the voiced/unvoiced mask in column
    [num_coded_sps + 1] of the frames [int(len_diff / 2)] to
    [int(len_diff / 2) + len(lf0)], and the loaded value in every other
    cell. *)
Theorem synthesize_extracted_calls_vocoder {E : Externals} {ES : ExternalsSpec E}
    (id_list : list string) (synth_output : gmap string ndarray)
    (st st' : state handler) :
  synth_acoustic_model_path (st_hparams st) = None ->
  synthesize id_list synth_output st = Ok st' ->
  exists loaded recon_dict arrays,
    load_extracted_audio_features (st_self st) synth_output (st_hparams st)
    = Ok loaded /\
    get_recon_from_synth_output (st_self st) synth_output (st_hparams st)
    = Ok recon_dict /\
    run_world_synth (Some arrays) (st_hparams st) = Ok (st_hparams st') /\
    st_calls st'
    = st_calls st ++ [Call_run_world_synth (Some arrays) (st_hparams st)] /\
    forall id_name sample,
      loaded !! id_name = Some sample ->
      exists lf0 sample',
        recon_dict !! id_name = Some lf0 /\
        arrays !! id_name = Some sample' /\
        (length lf0 <= nrows sample ->
         let start := Z.to_nat (int_half (Z.of_nat (nrows sample)
                                          - Z.of_nat (length lf0))) in
         forall c i : nat,
           entry sample' c i
           = if decide (c = num_coded_sps (st_hparams st) + 1
                        /\ start <= i < start + length lf0)
             then vuv_of lf0 !! (i - start)
             else if decide (c = num_coded_sps (st_hparams st)
                             /\ start <= i < start + length lf0)
                  then lf0 !! (i - start)
                  else entry sample c i).
Proof.
  intros Hpath Hrun. unfold synthesize in Hrun.
  inv_bind Hrun as [full_output st1] Hsynth.
  destruct (run_atom_synth_extracted _ _ _ _ _ Hpath Hsynth)
    as (-> & loaded & rd & arrays & Hload & Hrd & -> & Hin & Hout).
  unfold call_run_world_synth in Hrun. inv_bind Hrun as hparams' Hhp.
  injection Hrun as <-. simpl in *.
  exists loaded, rd, arrays.
  split; [exact Hload|]. split; [exact Hrd|]. split; [exact Hhp|].
  split; [reflexivity|].
  intros id_name m Hm.
  pose proof (load_extracted_audio_features_Ok _ _ _ _ Hload) as [_ Hnone].
  pose proof (get_recon_Ok _ _ _ _ Hrd) as [Hrec _].
  destruct (synth_output !! id_name) as [label|] eqn:Hl;
    [|rewrite Hnone in Hm by done; discriminate].
  destruct (Hrec _ _ Hl) as (lf0 & _ & Hlf0).
  destruct (Hin _ _ Hlf0) as (m0 & m' & Hm0 & Hwf & Hst & Hm').
  rewrite Hm in Hm0. injection Hm0 as <-.
  exists lf0, m'. split; [done|]. split; [done|].
  intros _ c i. by apply stitched_entry.
Qed.

Lemma synthesize_extracted_calls_vocoder_witness :
  synth_acoustic_model_path Demo.hparams = None /\
  exists st',
    synthesize (E := Demo.externals) ["utt1"; "utt2"] Demo.synth_output Demo.st0
    = Ok st' /\
    exists arrays sample',
      st_calls st' = [Call_run_world_synth (Some arrays) Demo.hparams] /\
      arrays !! "utt1" = Some sample' /\
      forall c i : nat,
        entry sample' c i
        = if decide (c = 2 /\ 1 <= i < 1 + 3)
          then [1; 1; 0]%float !! (i - 1)
          else if decide (c = 1 /\ 1 <= i < 1 + 3)
               then [4.5; 4; 0]%float !! (i - 1)
               else entry Demo.utt1_features c i.
Proof.
  assert (Hpath : synth_acoustic_model_path (st_hparams Demo.st0) = None)
    by reflexivity.
  split; [exact Hpath|]. eexists. split; [vm_compute; reflexivity|].
  edestruct (@synthesize_extracted_calls_vocoder Demo.externals
               demo_externals_spec ["utt1"; "utt2"] Demo.synth_output Demo.st0)
    as (loaded & rd & arrays & Hload & Hrd & _ & Hcalls & Hcells);
    [exact Hpath|vm_compute; reflexivity|].
  assert (Hload' : load_extracted_audio_features (E := Demo.externals) Demo.self
                     Demo.synth_output Demo.hparams = Ok DemoMore.loaded)
    by (vm_compute; reflexivity).
  assert (Hrd' : get_recon_from_synth_output (E := Demo.externals) Demo.self
                   Demo.synth_output Demo.hparams = Ok Demo.recon_dict)
    by (vm_compute; reflexivity).
  assert (Hloaded : loaded = DemoMore.loaded).
  { apply Ok_inj. rewrite <- Hload. exact Hload'. }
  assert (Hrecon : rd = Demo.recon_dict).
  { apply Ok_inj. rewrite <- Hrd. exact Hrd'. }
  subst loaded rd.
  assert (Hl : DemoMore.loaded !! "utt1" = Some Demo.utt1_features)
    by (vm_compute; reflexivity).
  destruct (Hcells _ _ Hl) as (lf0 & sample' & Hlf0 & Hs & Hent).
  assert (Hlf0' : Demo.recon_dict !! "utt1" = Some [4.5; 4; 0]%float)
    by (vm_compute; reflexivity).
  assert (Hlf0eq : lf0 = [4.5; 4; 0]%float).
  { apply (inj Some). rewrite <- Hlf0. exact Hlf0'. }
  subst lf0. exists arrays, sample'.
  split; [exact Hcalls|]. split; [exact Hs|].
  apply Hent. vm_compute. lia.
Defined.
